(** * Pharrrohealthapp: the extraction service, the reading log and the
      voice capture session, embedded and verified.

    Source files embedded here:
    - [services/geminiService.ts] (second part of src/App.tsx): the thirteen
      request/response functions of the structured extraction service;
    - [App.tsx]: the five reading lists, their [add...] reducers and
      [combinedLogs];
    - [components/MedicationLogModal.tsx] (src/unnamed/part_000): the voice
      session of the medication modal ([startListening], [stopListening],
      the channel callbacks and the component's effects).

    Further parts of the same files: the medication catalog of [App.tsx]
    ([saveUserMedication], [deleteUserMedication]), the audio helper
    functions of the modal ([encode], [createBlob]) and its two submit
    handlers with the cells of the manual tab. *)

From Stdlib Require Import List String Ascii Bool ZArith Lia Floats DecimalString.
From Stdlib Require Import DecimalPos DecimalZ.
From Stdlib Require Import Sorting.Sorted Sorting.Permutation.
Import ListNotations.

Set Implicit Arguments.
Set Warnings "-register-all".
Local Open Scope string_scope.

(* ================================================================== *)
(** * JavaScript values as the service sees them *)
(* ================================================================== *)

Module Js.

(** What [JSON.parse] can produce, plus [undefined], which a property read
    of an absent key yields.  Numbers are IEEE-754 doubles, as in JS. *)
Inductive value : Type :=
| VUndefined
| VNull
| VBool (b : bool)
| VNum (x : float)
| VStr (s : string)
| VArr (items : list value)
| VObj (props : list (string * value)).

(** ToBoolean: [undefined], [null], [false], [0], [-0], [NaN] and the empty
    string are falsy, everything else (every object and array) is truthy. *)
Definition truthy (v : value) : bool :=
  match v with
  | VUndefined | VNull => false
  | VBool b => b
  | VNum x => negb (PrimFloat.eqb x 0%float || PrimFloat.is_nan x)
  | VStr s => negb (s =? "")
  | VArr _ | VObj _ => true
  end.

(** The [typeof] operator. *)
Definition typeof (v : value) : string :=
  match v with
  | VUndefined => "undefined"
  | VNull => "object"
  | VBool _ => "boolean"
  | VNum _ => "number"
  | VStr _ => "string"
  | VArr _ | VObj _ => "object"
  end.

Definition isArray (v : value) : bool :=
  match v with VArr _ => true | _ => false end.

(** Own-property lookup in a parsed object.  The list stands for the
    object [JSON.parse] built, in which a key is bound once; the first
    binding of a key is the one the object has. *)
Fixpoint lookup (k : string) (props : list (string * value)) : value :=
  match props with
  | [] => VUndefined
  | (k', v) :: rest => if k' =? k then v else lookup k rest
  end.

(** [v.k] for a [v] that is neither [null] nor [undefined].  The keys the
    service reads ([isMeter], [value], [unit], [name], [quantity], ...) are
    not properties of the String, Number, Boolean or Array prototypes, so
    on those values the read gives [undefined]. *)
Definition prop (v : value) (k : string) : value :=
  match v with
  | VObj props => lookup k props
  | _ => VUndefined
  end.

(** Strict equality with a string literal: [v === lit]. *)
Definition is_string (v : value) (lit : string) : bool :=
  match v with VStr s => s =? lit | _ => false end.

End Js.

(* ================================================================== *)
(** * services/geminiService.ts *)
(* ================================================================== *)

Module GeminiService.
Import Js.

(** [UserMedication], as the catalog entries of dummyData.ts show it. *)
Record UserMedication : Type := {
  um_id : string;
  um_name : string;
  um_dosage : float;
  um_unit : string
}.

(** One constructor per [ai.models.generateContent] call site, carrying the
    data the call site interpolates into its request; model name, prompt
    text and response schema are fixed by the call site. *)
Inductive request : Type :=
| AskIsMeter (base64Image mimeType : string)
| AskIsFood (base64Image mimeType : string)
| AskIsScale (base64Image mimeType : string)
| AskIsMonitor (base64Image mimeType : string)
| AskGlucoseText (transcript : string)
| AskGlucoseImage (base64Image mimeType : string)
| AskMedicationText (medicationNames : list string) (transcript : string)
| AskMealImage (base64Image mimeType : string)
| AskMealText (transcript : string)
| AskWeightImage (base64Image mimeType : string)
| AskWeightText (transcript : string)
| AskBloodPressureImage (base64Image mimeType : string)
| AskBloodPressureText (transcript : string).

(** The [responseSchema] objects of the call sites. *)
Inductive schema : Type :=
| TBoolean
| TNumber
| TString
| TArray (items : schema)
| TObject (properties : list (string * schema)) (required : list string).

Definition nutritionSchema : schema :=
  TObject [("carbohydrates", TNumber); ("calories", TNumber);
           ("protein", TNumber); ("fat", TNumber)]
          ["carbohydrates"; "calories"; "protein"; "fat"].

Definition mealSchema : schema :=
  TObject [("foodItems",
            TArray (TObject [("name", TString); ("nutrition", nutritionSchema)]
                            ["name"; "nutrition"]));
           ("totalNutrition", nutritionSchema)]
          ["foodItems"; "totalNutrition"].

Definition glucoseSchema : schema :=
  TObject [("value", TNumber); ("unit", TString); ("context", TString)]
          ["value"; "unit"; "context"].

Definition weightSchema : schema :=
  TObject [("value", TNumber); ("unit", TString)] ["value"; "unit"].

Definition bloodPressureSchema : schema :=
  TObject [("systolic", TNumber); ("diastolic", TNumber); ("pulse", TNumber)]
          ["systolic"; "diastolic"; "pulse"].

Definition flagSchema (flag : string) : schema :=
  TObject [(flag, TBoolean)] [flag].

Definition responseSchema (r : request) : schema :=
  match r with
  | AskIsMeter _ _ => flagSchema "isMeter"
  | AskIsFood _ _ => flagSchema "isFood"
  | AskIsScale _ _ => flagSchema "isScale"
  | AskIsMonitor _ _ => flagSchema "isMonitor"
  | AskGlucoseText _ | AskGlucoseImage _ _ => glucoseSchema
  | AskMedicationText _ _ =>
      TObject [("name", TString); ("quantity", TNumber)] ["name"; "quantity"]
  | AskMealImage _ _ | AskMealText _ => mealSchema
  | AskWeightImage _ _ | AskWeightText _ => weightSchema
  | AskBloodPressureImage _ _ | AskBloodPressureText _ => bloodPressureSchema
  end.

(** What [JSON.parse(response.text.trim())] after
    [await ai.models.generateContent(...)] comes to.  The three failures are
    raised inside the same [try] block. *)
Inductive outcome : Type :=
| Rejects            (* the request promise rejects: transport or backend error *)
| NoText             (* [response.text] is undefined: [.trim()] raises *)
| Malformed          (* [JSON.parse] raises a SyntaxError *)
| Parsed (v : value).

Inductive exn : Type :=
| TransportError
| TypeError
| SyntaxError
| Error (message : string).

Inductive completion (A : Type) : Type :=
| Return (a : A)
| Throw (e : exn).
Arguments Return {A} a.
Arguments Throw {A} e.

(** The observable world of the service: the requests issued so far, in
    order, and the lines written with [console.error]. *)
Record world : Type := {
  requests : list request;
  console : list string
}.

Definition M (A : Type) : Type := world -> completion A * world.

Definition ret {A} (a : A) : M A := fun w => (Return a, w).

Definition throw {A} (e : exn) : M A := fun w => (Throw e, w).

Definition bind {A B} (m : M A) (k : A -> M B) : M B :=
  fun w => match m w with
           | (Return a, w') => k a w'
           | (Throw e, w') => (Throw e, w')
           end.

Definition try_catch {A} (body : M A) (handler : exn -> M A) : M A :=
  fun w => match body w with
           | (Return a, w') => (Return a, w')
           | (Throw e, w') => handler e w'
           end.

(** [console.error(line, error)]; the line is recorded, the error object
    printed after it is not. *)
Definition console_error (line : string) : M unit :=
  fun w => (Return tt, {| requests := requests w; console := console w ++ [line] |}).

Notation "x <- m ;; k" := (bind m (fun x => k))
  (at level 61, m at next level, right associativity).
Notation "m ;;; k" := (bind m (fun _ => k))
  (at level 61, right associativity).

(** [v.k] inside a [try]: reading a property of [null] or [undefined]
    raises a TypeError. *)
Definition get (v : value) (k : string) : M value :=
  match v with
  | VUndefined | VNull => throw TypeError
  | _ => ret (prop v k)
  end.

Section Service.

(** The extraction backend: its answer to the [n]-th request of a run. *)
Variable backend : nat -> request -> outcome.

(** [String.prototype.toLowerCase]. *)
Variable toLowerCase : string -> string.

(** [JSON.parse((await ai.models.generateContent(r)).text.trim())]. *)
Definition generateContent (r : request) : M value :=
  fun w =>
    let w' := {| requests := requests w ++ [r]; console := console w |} in
    match backend (List.length (requests w)) r with
    | Rejects => (Throw TransportError, w')
    | NoText => (Throw TypeError, w')
    | Malformed => (Throw SyntaxError, w')
    | Parsed v => (Return v, w')
    end.

(** ** The four classifiers *)

Definition isImageOfGlucoseMeter (base64Image mimeType : string) : M value :=
  try_catch
    (parsed <- generateContent (AskIsMeter base64Image mimeType) ;;
     get parsed "isMeter")
    (fun _ => console_error "Error validating glucose meter image:" ;;;
              ret (VBool false)).

Definition isImageOfFood (base64Image mimeType : string) : M value :=
  try_catch
    (parsed <- generateContent (AskIsFood base64Image mimeType) ;;
     get parsed "isFood")
    (fun _ => console_error "Error validating food image:" ;;;
              ret (VBool false)).

Definition isImageOfWeightScale (base64Image mimeType : string) : M value :=
  try_catch
    (parsed <- generateContent (AskIsScale base64Image mimeType) ;;
     get parsed "isScale")
    (fun _ => console_error "Error validating weight scale image:" ;;;
              ret (VBool false)).

Definition isImageOfBloodPressureMonitor (base64Image mimeType : string) : M value :=
  try_catch
    (parsed <- generateContent (AskIsMonitor base64Image mimeType) ;;
     get parsed "isMonitor")
    (fun _ => console_error "Error validating blood pressure monitor image:" ;;;
              ret (VBool false)).

(** ** The validations applied to a parsed response *)

Definition validGlucose (parsed : value) : bool :=
  truthy parsed
  && (typeof (prop parsed "value") =? "number")
  && (typeof (prop parsed "unit") =? "string")
  && (typeof (prop parsed "context") =? "string").

Definition validWeight (parsed : value) : bool :=
  truthy parsed
  && (typeof (prop parsed "value") =? "number")
  && (is_string (prop parsed "unit") "kg" || is_string (prop parsed "unit") "lbs").

Definition validBloodPressure (parsed : value) : bool :=
  truthy parsed
  && (typeof (prop parsed "systolic") =? "number")
  && (typeof (prop parsed "diastolic") =? "number")
  && (typeof (prop parsed "pulse") =? "number").

Definition validMeal (parsed : value) : bool :=
  truthy parsed
  && isArray (prop parsed "foodItems")
  && truthy (prop parsed "totalNutrition").

(** The shared tail of the extraction functions: validate and return the
    parsed object itself, or [null]. *)
Definition checked (valid : value -> bool) (parsed : value) : M value :=
  if valid parsed then ret parsed else ret VNull.

(** ** Extraction from text *)

Definition parseGlucoseReadingFromText (transcript : string) : M value :=
  try_catch
    (parsed <- generateContent (AskGlucoseText transcript) ;;
     checked validGlucose parsed)
    (fun _ => console_error "Error parsing glucose reading with Gemini:" ;;;
              ret VNull).

Definition parseMealFromText (transcript : string) : M value :=
  try_catch
    (parsed <- generateContent (AskMealText transcript) ;;
     checked validMeal parsed)
    (fun _ => console_error "Error parsing meal from text with Gemini:" ;;;
              ret VNull).

Definition parseWeightFromText (transcript : string) : M value :=
  try_catch
    (parsed <- generateContent (AskWeightText transcript) ;;
     checked validWeight parsed)
    (fun _ => console_error "Error parsing weight from text with Gemini:" ;;;
              ret VNull).

Definition parseBloodPressureFromText (transcript : string) : M value :=
  try_catch
    (parsed <- generateContent (AskBloodPressureText transcript) ;;
     checked validBloodPressure parsed)
    (fun _ => console_error "Error parsing blood pressure from text with Gemini:" ;;;
              ret VNull).

(** ** Extraction from an image: classify, then extract *)

Definition parseGlucoseReadingFromImage (base64Image mimeType : string) : M value :=
  isMeter <- isImageOfGlucoseMeter base64Image mimeType ;;
  if negb (truthy isMeter)
  then throw (Error "Image does not appear to contain a glucose meter.")
  else
    try_catch
      (parsed <- generateContent (AskGlucoseImage base64Image mimeType) ;;
       checked validGlucose parsed)
      (fun _ => console_error "Error parsing glucose from image with Gemini:" ;;;
                ret VNull).

Definition analyzeMealPhoto (base64Image mimeType : string) : M value :=
  isFood <- isImageOfFood base64Image mimeType ;;
  if negb (truthy isFood)
  then throw (Error "Image does not appear to contain food.")
  else
    try_catch
      (parsed <- generateContent (AskMealImage base64Image mimeType) ;;
       checked validMeal parsed)
      (fun _ => console_error "Error analyzing meal photo with Gemini:" ;;;
                ret VNull).

Definition parseWeightFromImage (base64Image mimeType : string) : M value :=
  isScale <- isImageOfWeightScale base64Image mimeType ;;
  if negb (truthy isScale)
  then throw (Error "Image does not appear to contain a weight scale.")
  else
    try_catch
      (parsed <- generateContent (AskWeightImage base64Image mimeType) ;;
       checked validWeight parsed)
      (fun _ => console_error "Error parsing weight from image with Gemini:" ;;;
                ret VNull).

Definition parseBloodPressureFromImage (base64Image mimeType : string) : M value :=
  isMonitor <- isImageOfBloodPressureMonitor base64Image mimeType ;;
  if negb (truthy isMonitor)
  then throw (Error "Image does not appear to contain a blood pressure monitor.")
  else
    try_catch
      (parsed <- generateContent (AskBloodPressureImage base64Image mimeType) ;;
       checked validBloodPressure parsed)
      (fun _ => console_error "Error parsing blood pressure from image with Gemini:" ;;;
                ret VNull).

(** ** Medication matching *)

Record MedicationMatch : Type := {
  matchedMed : UserMedication;
  quantity : float
}.

(** [m.name.toLowerCase() === name.toLowerCase()] *)
Definition sameName (name : string) (m : UserMedication) : bool :=
  toLowerCase (um_name m) =? toLowerCase name.

(** The body of the [if (parsed && typeof parsed.name === 'string' && ...)]
    block and the [return null] after it. *)
Definition matchParsed (userMedications : list UserMedication) (parsed : value)
  : option MedicationMatch :=
  if truthy parsed
     && (typeof (prop parsed "name") =? "string")
     && (typeof (prop parsed "quantity") =? "number")
  then
    match prop parsed "name", prop parsed "quantity" with
    | VStr name, VNum q =>
        if PrimFloat.ltb 0%float q
        then match find (sameName name) userMedications with
             | Some m => Some {| matchedMed := m; quantity := q |}
             | None => None
             end
        else None
    | _, _ => None
    end
  else None.

Definition parseMedicationFromText (transcript : string)
    (userMedications : list UserMedication) : M (option MedicationMatch) :=
  if (List.length userMedications =? 0)%nat then ret None
  else
    let medicationNames := map um_name userMedications in
    try_catch
      (parsed <- generateContent (AskMedicationText medicationNames transcript) ;;
       ret (matchParsed userMedications parsed))
      (fun _ => console_error "Error parsing medication from text with Gemini:" ;;;
                ret None).

(** ** The operation families of the specification

    [classify], [extractFromImage] and [extractFromText] name, per reading
    kind, the exported function that implements the operation. *)

Inductive subject : Type :=
| GlucoseMeter
| Food
| WeightScale
| BloodPressureMonitor.

Definition classify (c : subject) : string -> string -> M value :=
  match c with
  | GlucoseMeter => isImageOfGlucoseMeter
  | Food => isImageOfFood
  | WeightScale => isImageOfWeightScale
  | BloodPressureMonitor => isImageOfBloodPressureMonitor
  end.

Definition classifyRequest (c : subject) : string -> string -> request :=
  match c with
  | GlucoseMeter => AskIsMeter
  | Food => AskIsFood
  | WeightScale => AskIsScale
  | BloodPressureMonitor => AskIsMonitor
  end.

Definition extractFromImage (c : subject) : string -> string -> M value :=
  match c with
  | GlucoseMeter => parseGlucoseReadingFromImage
  | Food => analyzeMealPhoto
  | WeightScale => parseWeightFromImage
  | BloodPressureMonitor => parseBloodPressureFromImage
  end.

Definition extractRequest (c : subject) : string -> string -> request :=
  match c with
  | GlucoseMeter => AskGlucoseImage
  | Food => AskMealImage
  | WeightScale => AskWeightImage
  | BloodPressureMonitor => AskBloodPressureImage
  end.

(** The message of the error raised when the classifier says no. *)
Definition wrongContent (c : subject) : exn :=
  match c with
  | GlucoseMeter => Error "Image does not appear to contain a glucose meter."
  | Food => Error "Image does not appear to contain food."
  | WeightScale => Error "Image does not appear to contain a weight scale."
  | BloodPressureMonitor =>
      Error "Image does not appear to contain a blood pressure monitor."
  end.

(** The three text extractions with a flat, fully typed schema. *)
Inductive measurement : Type :=
| Glucose
| Weight
| BloodPressure.

Definition extractFromText (k : measurement) : string -> M value :=
  match k with
  | Glucose => parseGlucoseReadingFromText
  | Weight => parseWeightFromText
  | BloodPressure => parseBloodPressureFromText
  end.

Definition textRequest (k : measurement) : string -> request :=
  match k with
  | Glucose => AskGlucoseText
  | Weight => AskWeightText
  | BloodPressure => AskBloodPressureText
  end.

End Service.

End GeminiService.

(* ================================================================== *)
(** * App.tsx: the reading lists and the combined log *)
(* ================================================================== *)

Module App.

Section JsArray.

Variable A : Type.

(** The comparator protocol of [Array.prototype.sort]: a negative result
    puts the first argument first, a positive one the second. *)
Variable compareFn : A -> A -> Z.

(** [Array.prototype.sort] is stable (ECMAScript 2019): elements that the
    comparator does not separate keep their relative order.  For a
    consistent comparator that fixes the result; it is computed here by
    insertion from the right, each element going in front of the first
    element it does not have to follow. *)
Fixpoint insert (x : A) (sorted : list A) : list A :=
  match sorted with
  | [] => [x]
  | y :: rest =>
      if (compareFn x y <=? 0)%Z then x :: y :: rest else y :: insert x rest
  end.

Definition sort (l : list A) : list A := fold_right insert [] l.

End JsArray.

(** [`${prefix}${Date.now()}`] *)
Definition makeId (prefix : string) (now : Z) : string :=
  prefix ++ NilZero.string_of_int (Z.to_int now).

Section Readings.

(** The kind-specific fields of the five reading types of types.ts. *)
Variables GlucoseFields MealFields MedicationFields WeightFields
  BloodPressureFields : Type.

(** [Omit<T, 'id'>]: what a modal hands to an [add...] callback.  The
    field [timestamp] stands for [new Date(r.timestamp).getTime()], the
    epoch milliseconds the comparators read; the modals write the string
    with [new Date().toISOString()], so it always denotes a date. *)
Record Unsaved (F : Type) : Type := {
  u_timestamp : Z;
  u_fields : F
}.

(** A stored reading: [{ ...reading, id }]. *)
Record Reading (F : Type) : Type := {
  id : string;
  timestamp : Z;
  fields : F
}.

Definition withId {F} (reading : Unsaved F) (newId : string) : Reading F :=
  {| id := newId; timestamp := u_timestamp reading; fields := u_fields reading |}.

(** [(a, b) => new Date(b.timestamp).getTime() - new Date(a.timestamp).getTime()] *)
Definition byNewest {F} (a b : Reading F) : Z := timestamp b - timestamp a.

(** The five [useState] lists. *)
Record state : Type := {
  glucoseReadings : list (Reading GlucoseFields);
  meals : list (Reading MealFields);
  medications : list (Reading MedicationFields);
  weightReadings : list (Reading WeightFields);
  bloodPressureReadings : list (Reading BloodPressureFields)
}.

(** [[...prev, { ...reading, id }].sort(byNewest)] *)
Definition appended {F} (prefix : string) (now : Z) (reading : Unsaved F)
    (prev : list (Reading F)) : list (Reading F) :=
  sort byNewest (prev ++ [withId reading (makeId prefix now)]).

Definition addGlucoseReading (now : Z) (reading : Unsaved GlucoseFields) (s : state) : state :=
  {| glucoseReadings := appended "g" now reading (glucoseReadings s);
     meals := meals s;
     medications := medications s;
     weightReadings := weightReadings s;
     bloodPressureReadings := bloodPressureReadings s |}.

Definition addMeal (now : Z) (meal : Unsaved MealFields) (s : state) : state :=
  {| glucoseReadings := glucoseReadings s;
     meals := appended "m" now meal (meals s);
     medications := medications s;
     weightReadings := weightReadings s;
     bloodPressureReadings := bloodPressureReadings s |}.

Definition addMedication (now : Z) (medication : Unsaved MedicationFields) (s : state) : state :=
  {| glucoseReadings := glucoseReadings s;
     meals := meals s;
     medications := appended "med" now medication (medications s);
     weightReadings := weightReadings s;
     bloodPressureReadings := bloodPressureReadings s |}.

Definition addWeightReading (now : Z) (reading : Unsaved WeightFields) (s : state) : state :=
  {| glucoseReadings := glucoseReadings s;
     meals := meals s;
     medications := medications s;
     weightReadings := appended "w" now reading (weightReadings s);
     bloodPressureReadings := bloodPressureReadings s |}.

Definition addBloodPressureReading (now : Z) (reading : Unsaved BloodPressureFields)
    (s : state) : state :=
  {| glucoseReadings := glucoseReadings s;
     meals := meals s;
     medications := medications s;
     weightReadings := weightReadings s;
     bloodPressureReadings := appended "bp" now reading (bloodPressureReadings s) |}.

(** [LogEntry]: a reading tagged with its [type]. *)
Inductive LogEntry : Type :=
| glucose (r : Reading GlucoseFields)
| meal (m : Reading MealFields)
| medication (med : Reading MedicationFields)
| weight (w : Reading WeightFields)
| blood_pressure (bp : Reading BloodPressureFields).

Definition getTime (e : LogEntry) : Z :=
  match e with
  | glucose r => timestamp r
  | meal m => timestamp m
  | medication med => timestamp med
  | weight w => timestamp w
  | blood_pressure bp => timestamp bp
  end.

(** The array literal of [combinedLogs], before [.sort]. *)
Definition spread (s : state) : list LogEntry :=
  map glucose (glucoseReadings s)
  ++ map meal (meals s)
  ++ map medication (medications s)
  ++ map weight (weightReadings s)
  ++ map blood_pressure (bloodPressureReadings s).

Definition entriesByNewest (a b : LogEntry) : Z := getTime b - getTime a.

Definition combinedLogs (s : state) : list LogEntry :=
  sort entriesByNewest (spread s).

(** One call of an [add...] callback, with the clock value its
    [Date.now()] reads. *)
Inductive append : Type :=
| AddGlucoseReading (now : Z) (reading : Unsaved GlucoseFields)
| AddMeal (now : Z) (m : Unsaved MealFields)
| AddMedication (now : Z) (med : Unsaved MedicationFields)
| AddWeightReading (now : Z) (reading : Unsaved WeightFields)
| AddBloodPressureReading (now : Z) (reading : Unsaved BloodPressureFields).

Definition apply (a : append) (s : state) : state :=
  match a with
  | AddGlucoseReading now r => addGlucoseReading now r s
  | AddMeal now m => addMeal now m s
  | AddMedication now med => addMedication now med s
  | AddWeightReading now r => addWeightReading now r s
  | AddBloodPressureReading now r => addBloodPressureReading now r s
  end.

(** An interleaving of appends, applied in order. *)
Definition run (appends : list append) (s : state) : state :=
  fold_left (fun s a => apply a s) appends s.

End Readings.

Arguments glucose {_ _ _ _ _} r.
Arguments meal {_ _ _ _ _} m.
Arguments medication {_ _ _ _ _} med.
Arguments weight {_ _ _ _ _} w.
Arguments blood_pressure {_ _ _ _ _} bp.
Arguments AddGlucoseReading {_ _ _ _ _} now reading.
Arguments AddMeal {_ _ _ _ _} now m.
Arguments AddMedication {_ _ _ _ _} now med.
Arguments AddWeightReading {_ _ _ _ _} now reading.
Arguments AddBloodPressureReading {_ _ _ _ _} now reading.

End App.

(* ================================================================== *)
(** * components/MedicationLogModal.tsx: the voice session *)
(* ================================================================== *)

Module MedicationLogModal.
Import GeminiService.

Inductive VoiceStep : Type := say_medication | confirm.

Record MedData : Type := {
  med : option UserMedication;
  md_quantity : float;
  md_transcript : string
}.

(** The [useState] cells of the voice tab. *)
Record hooks : Type := {
  voiceStep : VoiceStep;
  medData : MedData;
  currentTranscript : string;
  isLoading : bool;
  error : string;
  isListening : bool
}.

(** The [useRef] cells.  A handle is the number of the object it points
    to; the objects made for one granted microphone stream (the stream, the
    live connection opened for it, the audio context and script processor
    its [onopen] creates) share the stream's number. *)
Record refs : Type := {
  sessionRef : option nat;
  inputAudioContextRef : option nat;
  scriptProcessorRef : option nat;
  streamRef : option nat
}.

(** [Blob] of the SDK: base64 payload and MIME descriptor. *)
Record Blob : Type := {
  data : string;
  mimeType : string
}.

(** The state of a [sessionPromise], with the [.then] callbacks of audio
    frames that wait for it. *)
Inductive promise : Type :=
| Pending (waiting : list Blob)
| Fulfilled
| Rejected.

(** What lives outside the component's cells: whether it is mounted, the
    suspended [async] calls, the promises and handlers the closures hold,
    and the audio contexts whose [state] attribute reads ['closed'].
    The call of [close()] sets the state of the audio context: its [state]
    attribute reads ['closed'] as soon as the call returns, while the
    promise the call returned resolves later (Web Audio API,
    AudioContext.close: the control thread state is set by the call). *)
Record runtime : Type := {
  mounted : bool;
  micRequests : nat;                  (* [startListening] calls awaiting [getUserMedia] *)
  connections : list (nat * promise); (* the [sessionPromise] of each [live.connect] *)
  handlers : list nat;                (* processors with [onaudioprocess] installed *)
  awaitingClose : list nat;           (* [stopListening] calls awaiting [close()] *)
  closedContexts : list nat
}.

Record modal : Type := {
  state : hooks;
  ref : refs;
  rt : runtime
}.

(** The calls the component makes on the browser, the SDK and the service. *)
Inductive action : Type :=
| GetUserMedia
| Connect (stream : nat)
| CreateAudioGraph (k : nat)
| StopTracks (stream : nat)
| Disconnect (processor : nat)
| CloseContext (context : nat)
| CloseSession (session : nat)
| SendRealtimeInput (session : nat) (media : Blob)
| ParseMedicationFromText (text : string)
| ConsoleError (line : string)
| ConsoleErrorValue (e : exn).            (* [console.error(e)] *)

Definition initial : modal :=
  {| state := {| voiceStep := say_medication;
                 medData := {| med := None; md_quantity := 0; md_transcript := "" |};
                 currentTranscript := "";
                 isLoading := false;
                 error := "";
                 isListening := false |};
     ref := {| sessionRef := None; inputAudioContextRef := None;
               scriptProcessorRef := None; streamRef := None |};
     rt := {| mounted := true; micRequests := 0; connections := [];
              handlers := []; awaitingClose := []; closedContexts := [] |} |}.

(** ** Setters *)

(** A [set...] call of a [useState] cell; on an unmounted component it does
    nothing. *)
Definition setState (f : hooks -> hooks) (s : modal) : modal :=
  if mounted (rt s) then {| state := f (state s); ref := ref s; rt := rt s |} else s.

Definition setVoiceStep (v : VoiceStep) : modal -> modal :=
  setState (fun h => {| voiceStep := v; medData := medData h;
                        currentTranscript := currentTranscript h;
                        isLoading := isLoading h; error := error h;
                        isListening := isListening h |}).

Definition setMedData (d : MedData) : modal -> modal :=
  setState (fun h => {| voiceStep := voiceStep h; medData := d;
                        currentTranscript := currentTranscript h;
                        isLoading := isLoading h; error := error h;
                        isListening := isListening h |}).

Definition setCurrentTranscript (f : string -> string) : modal -> modal :=
  setState (fun h => {| voiceStep := voiceStep h; medData := medData h;
                        currentTranscript := f (currentTranscript h);
                        isLoading := isLoading h; error := error h;
                        isListening := isListening h |}).

Definition setIsLoading (b : bool) : modal -> modal :=
  setState (fun h => {| voiceStep := voiceStep h; medData := medData h;
                        currentTranscript := currentTranscript h;
                        isLoading := b; error := error h;
                        isListening := isListening h |}).

Definition setError (e : string) : modal -> modal :=
  setState (fun h => {| voiceStep := voiceStep h; medData := medData h;
                        currentTranscript := currentTranscript h;
                        isLoading := isLoading h; error := e;
                        isListening := isListening h |}).

Definition setIsListening (b : bool) : modal -> modal :=
  setState (fun h => {| voiceStep := voiceStep h; medData := medData h;
                        currentTranscript := currentTranscript h;
                        isLoading := isLoading h; error := error h;
                        isListening := b |}).

Definition setRefs (f : refs -> refs) (s : modal) : modal :=
  {| state := state s; ref := f (ref s); rt := rt s |}.

Definition setSessionRef (v : option nat) : modal -> modal :=
  setRefs (fun r => {| sessionRef := v;
                       inputAudioContextRef := inputAudioContextRef r;
                       scriptProcessorRef := scriptProcessorRef r;
                       streamRef := streamRef r |}).

Definition setInputAudioContextRef (v : option nat) : modal -> modal :=
  setRefs (fun r => {| sessionRef := sessionRef r;
                       inputAudioContextRef := v;
                       scriptProcessorRef := scriptProcessorRef r;
                       streamRef := streamRef r |}).

Definition setScriptProcessorRef (v : option nat) : modal -> modal :=
  setRefs (fun r => {| sessionRef := sessionRef r;
                       inputAudioContextRef := inputAudioContextRef r;
                       scriptProcessorRef := v;
                       streamRef := streamRef r |}).

Definition setStreamRef (v : option nat) : modal -> modal :=
  setRefs (fun r => {| sessionRef := sessionRef r;
                       inputAudioContextRef := inputAudioContextRef r;
                       scriptProcessorRef := scriptProcessorRef r;
                       streamRef := v |}).

Definition setRuntime (f : runtime -> runtime) (s : modal) : modal :=
  {| state := state s; ref := ref s; rt := f (rt s) |}.

Definition setMounted (b : bool) : modal -> modal :=
  setRuntime (fun r => {| mounted := b; micRequests := micRequests r;
                          connections := connections r; handlers := handlers r;
                          awaitingClose := awaitingClose r;
                          closedContexts := closedContexts r |}).

Definition setMicRequests (n : nat) : modal -> modal :=
  setRuntime (fun r => {| mounted := mounted r; micRequests := n;
                          connections := connections r; handlers := handlers r;
                          awaitingClose := awaitingClose r;
                          closedContexts := closedContexts r |}).

Definition setConnections (c : list (nat * promise)) : modal -> modal :=
  setRuntime (fun r => {| mounted := mounted r; micRequests := micRequests r;
                          connections := c; handlers := handlers r;
                          awaitingClose := awaitingClose r;
                          closedContexts := closedContexts r |}).

Definition setHandlers (h : list nat) : modal -> modal :=
  setRuntime (fun r => {| mounted := mounted r; micRequests := micRequests r;
                          connections := connections r; handlers := h;
                          awaitingClose := awaitingClose r;
                          closedContexts := closedContexts r |}).

Definition setAwaitingClose (a : list nat) : modal -> modal :=
  setRuntime (fun r => {| mounted := mounted r; micRequests := micRequests r;
                          connections := connections r; handlers := handlers r;
                          awaitingClose := a;
                          closedContexts := closedContexts r |}).

Definition setClosedContexts (c : list nat) : modal -> modal :=
  setRuntime (fun r => {| mounted := mounted r; micRequests := micRequests r;
                          connections := connections r; handlers := handlers r;
                          awaitingClose := awaitingClose r;
                          closedContexts := c |}).

Definition mem (k : nat) (l : list nat) : bool := existsb (Nat.eqb k) l.

Fixpoint promiseOf (k : nat) (table : list (nat * promise)) : option promise :=
  match table with
  | [] => None
  | (k', p) :: rest => if (k' =? k)%nat then Some p else promiseOf k rest
  end.

Fixpoint settle (k : nat) (p : promise) (table : list (nat * promise))
  : list (nat * promise) :=
  match table with
  | [] => []
  | (k', q) :: rest =>
      if (k' =? k)%nat then (k', p) :: rest else (k', q) :: settle k p rest
  end.

Fixpoint remove1 (k : nat) (l : list nat) : list nat :=
  match l with
  | [] => []
  | x :: rest => if (x =? k)%nat then rest else x :: remove1 k rest
  end.

(** ** Handlers

    A handler runs to its end or to its first [await], changing the cells
    and making calls; what follows an [await] is the handler of the event
    that settles the awaited promise. *)

Definition handler : Type := modal -> modal * list action.

Definition skip : handler := fun s => (s, []).

Definition call (a : action) : handler := fun s => (s, [a]).

Definition assign (f : modal -> modal) : handler := fun s => (f s, []).

Definition andThen (h1 h2 : handler) : handler :=
  fun s => let (s1, a1) := h1 s in
           let (s2, a2) := h2 s1 in
           (s2, (a1 ++ a2)%list).

Notation "h1 >> h2" := (andThen h1 h2) (at level 62, left associativity).

Definition doubleQuote : string := String (ascii_of_nat 34) EmptyString.

Section Voice.

(** The [Float32Array] of one [onaudioprocess] event, and the conversion of
    [createBlob]/[encode] (16-bit PCM, then base64). *)
Variable Samples : Type.
Variable encodePcm : Samples -> string.

Definition createBlob (inputData : Samples) : Blob :=
  {| data := encodePcm inputData; mimeType := "audio/pcm;rate=16000" |}.

(** The events a modal reacts to: the invocations of its handlers,
    callbacks and effects, and the settling of the promises it awaits.
    Which of them the page and the browser deliver, and when, is not
    decided here: a handler is modelled for every state it can be invoked
    in. *)
Inductive event : Type :=
| ToggleListen                                  (* [handleToggleListen] *)
| MicrophoneGranted (stream : nat)              (* [getUserMedia] resolves *)
| MicrophoneDenied                              (* [getUserMedia] rejects *)
| ChannelOpened (k : nat)                       (* [callbacks.onopen] *)
| SessionReady (k : nat)                        (* [sessionPromise] fulfils *)
| ConnectFailed (k : nat)                       (* [sessionPromise] rejects *)
| Message (inputTranscription : option (option string))  (* [callbacks.onmessage] *)
| ChannelError                                  (* [callbacks.onerror] *)
| ChannelClose                                  (* [callbacks.onclose] *)
| AudioProcess (k : nat) (inputData : Samples)  (* [onaudioprocess] *)
| ContextClosed (c : nat)                       (* [close()] resolves *)
| ParseSettled (text : string) (result : completion (option MedicationMatch))
| StartOver                                     (* [resetVoiceState] from a button *)
| Dismiss                                       (* [isOpen] turns false *)
| Unmount.

(** The end of [stopListening]: [if (sessionRef.current) { close; null }]. *)
Definition closeSession : handler :=
  fun s => match sessionRef (ref s) with
           | Some x => (call (CloseSession x) >> assign (setSessionRef None)) s
           | None => skip s
           end.

(** [stopListening], up to its [await]. *)
Definition stopListening : handler :=
  assign (setIsListening false)
  >> (fun s => match streamRef (ref s) with
               | Some k => (call (StopTracks k) >> assign (setStreamRef None)) s
               | None => skip s
               end)
  >> (fun s => match scriptProcessorRef (ref s) with
               | Some p => (call (Disconnect p) >> assign (setScriptProcessorRef None)) s
               | None => skip s
               end)
  >> (fun s => match inputAudioContextRef (ref s) with
               | Some c =>
                   if mem c (closedContexts (rt s)) then closeSession s
                   else (* [close()] marks the context, then: suspended at [await] *)
                     (call (CloseContext c)
                      >> assign (fun s => setClosedContexts (c :: closedContexts (rt s)) s)
                      >> assign (fun s => setAwaitingClose (awaitingClose (rt s) ++ [c])%list s)) s
               | None => closeSession s
               end).

(** [stopListening] after its [await]. *)
Definition stopListening_resumed : handler :=
  assign (setInputAudioContextRef None) >> closeSession.

Definition contextClosed (c : nat) : handler :=
  fun s => if mem c (awaitingClose (rt s))
           then (assign (fun s => setAwaitingClose (remove1 c (awaitingClose (rt s))) s)
                 >> stopListening_resumed) s
           else skip s.

(** [startListening], up to [await getUserMedia]. *)
Definition startListening : handler :=
  fun s => if isListening (state s) then skip s
           else (assign (setIsListening true)
                 >> assign (setError "")
                 >> assign (setCurrentTranscript (fun _ => ""))
                 >> call GetUserMedia
                 >> assign (fun s => setMicRequests (S (micRequests (rt s))) s)) s.

(** The [catch] block of [startListening]. *)
Definition startListening_failed : handler :=
  call (ConsoleError "Error starting audio session:")
  >> assign (setError "Could not access the microphone.")
  >> assign (setIsListening false).

(** [startListening] from [getUserMedia] to [await sessionPromise]. *)
Definition microphoneGranted (stream : nat) : handler :=
  fun s => match micRequests (rt s) with
           | O => skip s
           | S n =>
               (assign (setMicRequests n)
                >> assign (setStreamRef (Some stream))
                >> call (Connect stream)
                >> assign (fun s => setConnections
                                      ((stream, Pending []) :: connections (rt s)) s)) s
           end.

Definition microphoneDenied : handler :=
  fun s => match micRequests (rt s) with
           | O => skip s
           | S n => (assign (setMicRequests n) >> startListening_failed) s
           end.

(** [onopen]: the audio context, the source and the script processor. *)
Definition onopen (k : nat) : handler :=
  fun s => match promiseOf k (connections (rt s)) with
           | Some _ =>
               (assign (setInputAudioContextRef (Some k))
                >> call (CreateAudioGraph k)
                >> assign (setScriptProcessorRef (Some k))
                >> assign (fun s => setHandlers (k :: handlers (rt s)) s)) s
           | None => skip s
           end.

(** [sessionRef.current = await sessionPromise], and the frames that
    waited for the promise. *)
Definition sessionReady (k : nat) : handler :=
  fun s => match promiseOf k (connections (rt s)) with
           | Some (Pending waiting) =>
               (assign (fun s => setConnections (settle k Fulfilled (connections (rt s))) s)
                >> assign (setSessionRef (Some k))
                >> (fun s => (s, map (SendRealtimeInput k) waiting))) s
           | _ => skip s
           end.

Definition connectFailed (k : nat) : handler :=
  fun s => match promiseOf k (connections (rt s)) with
           | Some (Pending _) =>
               (assign (fun s => setConnections (settle k Rejected (connections (rt s))) s)
                >> startListening_failed) s
           | _ => skip s
           end.

(** [onmessage]: [prev => prev + text]; an absent [text] is [undefined]. *)
Definition onmessage (inputTranscription : option (option string)) : handler :=
  match inputTranscription with
  | Some text =>
      assign (setCurrentTranscript
                (fun prev => prev ++ match text with
                                     | Some t => t
                                     | None => "undefined"
                                     end))
  | None => skip
  end.

Definition onerror : handler :=
  call (ConsoleError "Live session error:")
  >> assign (setError "A real-time connection error occurred.")
  >> stopListening.

Definition onclose : handler := skip.

(** [onaudioprocess]:
    [sessionPromise.then(session => session.sendRealtimeInput({ media }))]. *)
Definition onaudioprocess (k : nat) (inputData : Samples) : handler :=
  fun s => if mem k (handlers (rt s))
           then match promiseOf k (connections (rt s)) with
                | Some Fulfilled => call (SendRealtimeInput k (createBlob inputData)) s
                | Some (Pending waiting) =>
                    assign (fun s => setConnections
                                       (settle k (Pending (waiting ++ [createBlob inputData])%list)
                                          (connections (rt s))) s) s
                | _ => skip s
                end
           else skip s.

Definition handleToggleListen : handler :=
  fun s => if isListening (state s) then stopListening s else startListening s.

(** [handleParseMedication], up to [await parseMedicationFromText]. *)
Definition handleParseMedication (text : string) : handler :=
  assign (setIsLoading true)
  >> assign (setError "")
  >> call (ParseMedicationFromText text).

(** [handleParseMedication] after its [await]. *)
Definition parseSettled (text : string) (result : completion (option MedicationMatch))
  : handler :=
  match result with
  | Return (Some r) =>
      assign (setMedData {| med := Some (matchedMed r);
                            md_quantity := quantity r;
                            md_transcript := text |})
      >> assign (setVoiceStep confirm)
  | Return None =>
      assign (setError ("Couldn't understand. Please try saying " ++ doubleQuote
                        ++ "Metformin, 1 pill" ++ doubleQuote ++ "."))
  | Throw e =>
      assign (setError "An error occurred. Please try again.")
      >> call (ConsoleErrorValue e)
  end
  >> assign (setIsLoading false).

Definition resetVoiceState : handler :=
  assign (setVoiceStep say_medication)
  >> assign (setMedData {| med := None; md_quantity := 0; md_transcript := "" |})
  >> assign (setCurrentTranscript (fun _ => ""))
  >> assign (setError "")
  >> assign (setIsLoading false)
  >> stopListening.

(** The cleanup of the effect [() => { stopListening(); }]. *)
Definition unmount : handler :=
  assign (setMounted false) >> stopListening.

Definition handle (ev : event) : handler :=
  match ev with
  | ToggleListen => handleToggleListen
  | MicrophoneGranted stream => microphoneGranted stream
  | MicrophoneDenied => microphoneDenied
  | ChannelOpened k => onopen k
  | SessionReady k => sessionReady k
  | ConnectFailed k => connectFailed k
  | Message inputTranscription => onmessage inputTranscription
  | ChannelError => onerror
  | ChannelClose => onclose
  | AudioProcess k inputData => onaudioprocess k inputData
  | ContextClosed c => contextClosed c
  | ParseSettled text result => parseSettled text result
  | StartOver => resetVoiceState
  | Dismiss => resetVoiceState
  | Unmount => unmount
  end.

(** ** The effect on [[isListening, currentTranscript, handleParseMedication]]

    After the render that follows a handler, the effect runs if one of its
    dependencies changed ([handleParseMedication] changes only with the
    [userMedications] prop):
    [if (!isListening && currentTranscript) handleParseMedication(currentTranscript)]. *)
Definition dependenciesChanged (before after : modal) : bool :=
  negb (Bool.eqb (isListening (state before)) (isListening (state after)))
  || negb (currentTranscript (state before) =? currentTranscript (state after)).

Definition commit (before : modal) : handler :=
  fun after =>
    if mounted (rt after)
       && dependenciesChanged before after
       && negb (isListening (state after))
       && negb (currentTranscript (state after) =? "")
    then handleParseMedication (currentTranscript (state after)) after
    else skip after.

(** One turn of the event loop: the handler, then render and effects. *)
Definition step (ev : event) : handler :=
  fun s => (handle ev >> commit s) s.

Fixpoint run (evs : list event) : handler :=
  match evs with
  | [] => skip
  | ev :: rest => step ev >> run rest
  end.

End Voice.

End MedicationLogModal.

(* ================================================================== *)
(** * App.tsx: the medication catalog *)
(* ================================================================== *)

Module Catalog.
Import GeminiService.

(** [Omit<UserMedication, 'id'> & { id?: string }]: what the catalog modal
    hands to [saveUserMedication]. *)
Record Draft : Type := {
  d_id : option string;
  d_name : string;
  d_dosage : float;
  d_unit : string
}.

(** [m.id === med.id]; an absent [med.id] is [undefined] and equals no id. *)
Definition sameId (id : option string) (m : UserMedication) : bool :=
  match id with
  | Some i => um_id m =? i
  | None => false
  end.

(** [{ ...existing, ...med }]: [med] brings a value for every field but,
    possibly, [id]. *)
Definition merged (existing : UserMedication) (med : Draft) : UserMedication :=
  {| um_id := match d_id med with Some i => i | None => um_id existing end;
     um_name := d_name med;
     um_dosage := d_dosage med;
     um_unit := d_unit med |}.

(** [{ ...med, id: `um${Date.now()}` }] *)
Definition created (now : Z) (med : Draft) : UserMedication :=
  {| um_id := App.makeId "um" now;
     um_name := d_name med;
     um_dosage := d_dosage med;
     um_unit := d_unit med |}.

Definition saveUserMedication (now : Z) (med : Draft) (prev : list UserMedication)
  : list UserMedication :=
  match find (sameId (d_id med)) prev with
  | Some existing =>
      map (fun m => if sameId (d_id med) m then merged existing med else m) prev
  | None => prev ++ [created now med]
  end.

Definition deleteUserMedication (id : string) (prev : list UserMedication)
  : list UserMedication :=
  filter (fun m => negb (um_id m =? id)) prev.

End Catalog.

(* ================================================================== *)
(** * components/MedicationLogModal.tsx: the audio helper functions *)
(* ================================================================== *)

Module Audio.

Local Open Scope Z_scope.

(** The character code of a character of a binary string. *)
Definition charCode (c : ascii) : Z := Z.of_N (N_of_ascii c).

(** [String.fromCharCode(b)] for an element [b] of a [Uint8Array]. *)
Definition fromCharCode (b : Z) : ascii := ascii_of_N (Z.to_N b).

Definition alphabet : string :=
  "ABCDEFGHIJKLMNOPQRSTUVWXYZabcdefghijklmnopqrstuvwxyz0123456789+/".

(** The base64 digit of a 6-bit value. *)
Definition digit (i : Z) : ascii :=
  match String.get (Z.to_nat i) alphabet with
  | Some c => c
  | None => "="%char
  end.

(** [btoa]: three characters of the binary string become four digits; a
    last group of one or two characters is padded with [=]. *)
Fixpoint btoa (binary : string) : string :=
  match binary with
  | EmptyString => EmptyString
  | String a EmptyString =>
      String (digit (charCode a / 4))
        (String (digit (charCode a mod 4 * 16)) "==")
  | String a (String b EmptyString) =>
      String (digit (charCode a / 4))
        (String (digit (charCode a mod 4 * 16 + charCode b / 16))
           (String (digit (charCode b mod 16 * 4)) "="))
  | String a (String b (String c rest)) =>
      String (digit (charCode a / 4))
        (String (digit (charCode a mod 4 * 16 + charCode b / 16))
           (String (digit (charCode b mod 16 * 4 + charCode c / 64))
              (String (digit (charCode c mod 64)) (btoa rest))))
  end.

(** The loop of [encode]: [binary += String.fromCharCode(bytes[i])]. *)
Fixpoint binaryString (bytes : list Z) : string :=
  match bytes with
  | [] => EmptyString
  | b :: rest => String (fromCharCode b) (binaryString rest)
  end.

Definition encode (bytes : list Z) : string := btoa (binaryString bytes).

(** The integer part of a double, towards zero; [0] for [NaN] and the
    infinities. *)
Definition truncate (x : float) : Z :=
  match Prim2SF x with
  | S754_finite negative m e =>
      let magnitude := if 0 <=? e then Z.shiftl (Zpos m) e
                       else Z.shiftr (Zpos m) (- e) in
      if negative then - magnitude else magnitude
  | _ => 0
  end.

(** ToInt16, the conversion of a store into an [Int16Array]: the integer
    part modulo 2^16, read as a signed 16-bit number. *)
Definition ToInt16 (x : float) : Z :=
  let int16bit := truncate x mod 65536 in
  if 32768 <=? int16bit then int16bit - 65536 else int16bit.

(** [int16[i] = data[i] * 32768] *)
Definition scaled (sample : float) : Z := ToInt16 (PrimFloat.mul sample 32768%float).

(** [new Uint8Array(int16.buffer)]: two bytes per element, low byte first
    (the byte order of the platforms browsers run on). *)
Fixpoint bufferBytes (int16 : list Z) : list Z :=
  match int16 with
  | [] => []
  | v :: rest => (v mod 65536) mod 256 :: (v mod 65536) / 256 :: bufferBytes rest
  end.

(** The payload of [createBlob]: the samples of the [Float32Array] as
    16-bit PCM in base64. *)
Definition encodePcm (data : list float) : string :=
  encode (bufferBytes (map scaled data)).

Definition createBlob : list float -> MedicationLogModal.Blob :=
  MedicationLogModal.createBlob encodePcm.

End Audio.

(* ================================================================== *)
(** * components/MedicationLogModal.tsx: confirming and manual entry *)
(* ================================================================== *)

Module Submit.
Import Js GeminiService MedicationLogModal.

Inductive Source : Type := manual | voice.

(** The fields of [Omit<Medication, 'id'>] besides the timestamp. *)
Record MedicationFields : Type := {
  log_name : string;
  log_dosage : float;
  log_unit : string;
  log_quantity : float;
  log_transcript : option string;
  log_source : Source
}.

(** The calls a submit handler makes on the props of the modal.  The
    [timestamp] of the entry, [new Date().toISOString()], is carried as the
    clock value it prints. *)
Inductive propCall : Type :=
| onAddMedication (medication : App.Unsaved MedicationFields)
| onClose.

Definition handleVoiceSubmit (now : Z) (s : modal) : list propCall :=
  match med (medData (state s)) with
  | Some m =>
      if PrimFloat.ltb 0%float (md_quantity (medData (state s)))
      then [onAddMedication
              {| App.u_timestamp := now;
                 App.u_fields :=
                   {| log_name := um_name m;
                      log_dosage := um_dosage m;
                      log_unit := um_unit m;
                      log_quantity := md_quantity (medData (state s));
                      log_transcript := Some (md_transcript (medData (state s)));
                      log_source := voice |} |};
            onClose]
      else []
  | None => []
  end.

(** The [useState] cells of the manual tab. *)
Record manualCells : Type := {
  selectedMedId : string;
  quantity : float
}.

Definition initialManual : manualCells :=
  {| selectedMedId := ""; quantity := 1 |}.

(** [if (userMedications.length > 0) setSelectedMedId(userMedications[0].id)]:
    the body of the effect on [[userMedications]]. *)
Definition selectFirst (userMedications : list UserMedication) (m : manualCells)
  : manualCells :=
  match userMedications with
  | first :: _ => {| selectedMedId := um_id first; quantity := quantity m |}
  | [] => m
  end.

Definition resetManualState (userMedications : list UserMedication) (m : manualCells)
  : manualCells :=
  {| selectedMedId := selectedMedId (selectFirst userMedications m); quantity := 1 |}.

(** [onChange] of the select: [setSelectedMedId(e.target.value)]. *)
Definition onSelect (value : string) (m : manualCells) : manualCells :=
  {| selectedMedId := value; quantity := quantity m |}.

(** [Math.max(1, x)] *)
Definition Math_max_1 (x : float) : float :=
  if PrimFloat.is_nan x then PrimFloat.nan
  else if PrimFloat.ltb 1%float x then x else 1%float.

(** [onChange] of the quantity field:
    [setQuantity(Math.max(1, parseInt(e.target.value, 10) || 1))], for the
    number [parsed] that [parseInt] gives ([NaN] when the text is no
    number). *)
Definition onQuantityInput (parsed : float) (m : manualCells) : manualCells :=
  {| selectedMedId := selectedMedId m;
     quantity := Math_max_1 (if truthy (VNum parsed) then parsed else 1%float) |}.

(** [handleManualSubmit]: the calls on the props, or the error it sets. *)
Definition handleManualSubmit (now : Z) (userMedications : list UserMedication)
    (m : manualCells) : list propCall + string :=
  match find (fun u => um_id u =? selectedMedId m) userMedications with
  | Some selectedMed =>
      if PrimFloat.ltb 0%float (quantity m)
      then inl [onAddMedication
                  {| App.u_timestamp := now;
                     App.u_fields :=
                       {| log_name := um_name selectedMed;
                          log_dosage := um_dosage selectedMed;
                          log_unit := um_unit selectedMed;
                          log_quantity := quantity m;
                          log_transcript := None;
                          log_source := manual |} |};
                onClose]
      else inr "Please select a valid medication and quantity."
  | None => inr "Please select a valid medication and quantity."
  end.

(** What happens on the manual tab between mount and submit. *)
Inductive manualEvent : Type :=
| CatalogEffect                   (* the effect on [[userMedications]] *)
| Select (value : string)
| QuantityInput (parsed : float)
| ResetManual.

Definition manualStep (userMedications : list UserMedication) (ev : manualEvent)
    (m : manualCells) : manualCells :=
  match ev with
  | CatalogEffect => selectFirst userMedications m
  | Select value => onSelect value m
  | QuantityInput parsed => onQuantityInput parsed m
  | ResetManual => resetManualState userMedications m
  end.

Definition manualRun (userMedications : list UserMedication)
    (evs : list manualEvent) (m : manualCells) : manualCells :=
  fold_left (fun m ev => manualStep userMedications ev m) evs m.

End Submit.

(* ================================================================== *)
(** * Properties of the extraction service *)
(* ================================================================== *)

Module ServiceProofs.
Import Js GeminiService.

Lemma prop_defined_object (v : value) (k : string) :
  prop v k <> VUndefined -> exists props, v = VObj props.
Proof.
  destruct v; simpl; try congruence. intros _. now eexists.
Qed.

Lemma typeof_number (v : value) :
  (typeof v =? "number") = true <-> exists x, v = VNum x.
Proof.
  split.
  - destruct v; simpl; try discriminate. intros _. now eexists.
  - intros [x ->]. reflexivity.
Qed.

Lemma typeof_string (v : value) :
  (typeof v =? "string") = true <-> exists s, v = VStr s.
Proof.
  split.
  - destruct v; simpl; try discriminate. intros _. now eexists.
  - intros [s ->]. reflexivity.
Qed.

(** A double that is [<= 0] is not [> 0] (NaN is neither). *)
Lemma nonpositive_not_positive (q : float) :
  PrimFloat.leb q 0%float = true -> PrimFloat.ltb 0%float q = false.
Proof.
  rewrite leb_spec, ltb_spec. unfold SFleb, SFltb.
  destruct (Prim2SF q) as [s | s | | s m e]; simpl;
    try destruct s; simpl; congruence.
Qed.

(** [toLowerCase] on ASCII letters, to run the service on ASCII names. *)
Definition lowerChar (c : ascii) : ascii :=
  let n := nat_of_ascii c in
  if ((65 <=? n) && (n <=? 90))%nat then ascii_of_nat (n + 32) else c.

Fixpoint asciiLower (s : string) : string :=
  match s with
  | EmptyString => EmptyString
  | String c rest => String (lowerChar c) (asciiLower rest)
  end.

(** The catalog of dummyData.ts. *)
Definition metformin : UserMedication :=
  {| um_id := "um1"; um_name := "Metformin"; um_dosage := 500; um_unit := "mg" |}.

Definition initialUserMedications : list UserMedication :=
  [ metformin;
    {| um_id := "um2"; um_name := "Insulin Aspart (NovoRapid)";
       um_dosage := 1; um_unit := "units" |};
    {| um_id := "um3"; um_name := "Gliclazide"; um_dosage := 80; um_unit := "mg" |} ].

Definition emptyWorld : world := {| requests := []; console := [] |}.

(** A backend that answers every request with the same JSON document. *)
Definition answering (v : value) : nat -> request -> outcome :=
  fun _ _ => Parsed v.

(** A backend whose every request fails in transport. *)
Definition unreachable : nat -> request -> outcome :=
  fun _ _ => Rejects.

Definition flagOf (c : subject) : string :=
  match c with
  | GlucoseMeter => "isMeter"
  | Food => "isFood"
  | WeightScale => "isScale"
  | BloodPressureMonitor => "isMonitor"
  end.

Definition logged (r : request) (w : world) : world :=
  {| requests := requests w ++ [r]; console := console w |}.

(** From the specification's words: a response has "every required field
    present with the correct runtime type" for a schema. *)
Definition spec_hasType (t : schema) (v : value) : bool :=
  match t, v with
  | TBoolean, VBool _ => true
  | TNumber, VNum _ => true
  | TString, VStr _ => true
  | TArray _, VArr _ => true
  | TObject _ _, VObj _ => true
  | _, _ => false
  end.

Fixpoint declared (k : string) (properties : list (string * schema)) : option schema :=
  match properties with
  | [] => None
  | (k', t) :: rest => if k' =? k then Some t else declared k rest
  end.

Definition spec_wellTyped (s : schema) (v : value) : bool :=
  match s, v with
  | TObject properties required, VObj props =>
      forallb (fun k => match declared k properties with
                        | Some t => spec_hasType t (lookup k props)
                        | None => false
                        end) required
  | _, _ => false
  end.

Definition validFor (k : measurement) : value -> bool :=
  match k with
  | Glucose => validGlucose
  | Weight => validWeight
  | BloodPressure => validBloodPressure
  end.

Definition validImage (c : subject) : value -> bool :=
  match c with
  | GlucoseMeter => validGlucose
  | Food => validMeal
  | WeightScale => validWeight
  | BloodPressureMonitor => validBloodPressure
  end.

Lemma typeof_number_hasType v :
  (typeof v =? "number") = true -> spec_hasType TNumber v = true.
Proof. destruct v; simpl; congruence. Qed.

Lemma typeof_string_hasType v :
  (typeof v =? "string") = true -> spec_hasType TString v = true.
Proof. destruct v; simpl; congruence. Qed.

Lemma is_string_hasType v lit :
  is_string v lit = true -> spec_hasType TString v = true.
Proof. destruct v; simpl; congruence. Qed.

(** The code's validation implies the schema's required fields and types;
    for weight it is stricter (the unit must be ['kg'] or ['lbs']). *)
Lemma validFor_wellTyped (k : measurement) (transcript : string) (parsed : value) :
  validFor k parsed = true ->
  parsed <> VNull
  /\ spec_wellTyped (responseSchema (textRequest k transcript)) parsed = true.
Proof.
  destruct k; cbn [validFor textRequest responseSchema];
    unfold validGlucose, validWeight, validBloodPressure;
    rewrite !andb_true_iff; intros H;
    (destruct parsed as [ | | b | x | s | items | props];
     try (cbn in H; intuition discriminate)); (split; [discriminate|]);
    cbn in H |- *; rewrite !andb_true_iff.
  - destruct H as [[[_ Hv] Hu] Hc]. repeat split.
    + now apply typeof_number_hasType.
    + now apply typeof_string_hasType.
    + now apply typeof_string_hasType.
  - destruct H as [[_ Hv] Hu]. apply orb_true_iff in Hu. repeat split.
    + now apply typeof_number_hasType.
    + destruct Hu as [Hu | Hu]; exact (is_string_hasType _ _ Hu).
  - destruct H as [[[_ Hs] Hd] Hp].
    repeat split; now apply typeof_number_hasType.
Qed.

Section Service.

Variable backend : nat -> request -> outcome.
Variable toLowerCase : string -> string.

Abbreviation parseMedication := (parseMedicationFromText backend toLowerCase).

(** What [parseMedicationFromText] computes on a non-empty catalog. *)
Lemma parseMedicationFromText_eval transcript userMedications w :
  userMedications <> [] ->
  fst (parseMedication transcript userMedications w) =
  Return
    match backend (List.length (requests w))
            (AskMedicationText (map um_name userMedications) transcript) with
    | Parsed parsed => matchParsed toLowerCase userMedications parsed
    | _ => None
    end.
Proof.
  intros Hne. unfold parseMedicationFromText.
  destruct userMedications as [|m ms]; [congruence|].
  cbn [List.length Nat.eqb].
  unfold try_catch, bind, generateContent, console_error, ret.
  destruct (backend _ _); reflexivity.
Qed.

Lemma matchParsed_named userMedications parsed name q :
  prop parsed "name" = VStr name ->
  prop parsed "quantity" = VNum q ->
  matchParsed toLowerCase userMedications parsed =
  if PrimFloat.ltb 0%float q
  then match find (sameName toLowerCase name) userMedications with
       | Some m => Some {| matchedMed := m; quantity := q |}
       | None => None
       end
  else None.
Proof.
  intros Hn Hq. unfold matchParsed.
  destruct (prop_defined_object parsed "name") as [props ->]; [congruence|].
  rewrite Hn, Hq. reflexivity.
Qed.

(** C10: called with an empty catalog, [parseMedicationFromText] returns
    [null] at once: no request is issued to the backend (and nothing is
    logged), whatever the transcript. *)
Theorem parseMedicationFromText_empty_catalog (transcript : string) (w : world) :
  parseMedication transcript [] w = (Return None, w).
Proof. reflexivity. Qed.

(** C1: on a non-empty catalog, when the backend returns a name and a
    quantity, [parseMedicationFromText] compares the returned name with the
    catalog names ignoring case (both sides lowercased, then compared
    exactly).  It returns [null] whenever no catalog entry matches or the
    quantity is [<= 0]; when some entry matches and the quantity is [> 0]
    it returns a matching entry (the first in catalog order) together with
    the quantity. *)
Theorem parseMedicationFromText_matches
    (transcript : string) (userMedications : list UserMedication) (w : world)
    (parsed : value) (name : string) (q : float) :
  userMedications <> [] ->
  backend (List.length (requests w))
    (AskMedicationText (map um_name userMedications) transcript) = Parsed parsed ->
  prop parsed "name" = VStr name ->
  prop parsed "quantity" = VNum q ->
  ((forall m, In m userMedications -> toLowerCase (um_name m) <> toLowerCase name)
   \/ PrimFloat.leb q 0%float = true ->
   fst (parseMedication transcript userMedications w) = Return None)
  /\
  ((exists m, In m userMedications /\ toLowerCase (um_name m) = toLowerCase name) ->
   PrimFloat.ltb 0%float q = true ->
   exists m,
     fst (parseMedication transcript userMedications w)
       = Return (Some {| matchedMed := m; quantity := q |})
     /\ In m userMedications
     /\ toLowerCase (um_name m) = toLowerCase name
     /\ find (sameName toLowerCase name) userMedications = Some m).
Proof.
  intros Hne Hb Hn Hq.
  rewrite (parseMedicationFromText_eval transcript w Hne), Hb.
  rewrite (matchParsed_named userMedications parsed Hn Hq).
  split.
  - intros [Hnone | Hle].
    + destruct (PrimFloat.ltb 0%float q); [|reflexivity].
      destruct (find _ _) as [m|] eqn:Hf; [|reflexivity].
      apply find_some in Hf. destruct Hf as [Hin Hs].
      unfold sameName in Hs. apply String.eqb_eq in Hs.
      now elim (Hnone m Hin).
    + now rewrite (nonpositive_not_positive Hle).
  - intros [m0 [Hin0 Hm0]] Hpos. rewrite Hpos.
    destruct (find _ _) as [m|] eqn:Hf.
    + exists m. pose proof (find_some _ _ Hf) as [Hin Hs].
      unfold sameName in Hs. apply String.eqb_eq in Hs. auto.
    + pose proof (find_none _ _ Hf m0 Hin0) as Hs.
      unfold sameName in Hs. apply String.eqb_neq in Hs. now elim Hs.
Qed.

(** ** Classification *)

(** Every classifier issues exactly one request and returns: the flag of
    the parsed document when there is one to read, [false] otherwise. *)
Lemma classify_eval (c : subject) (base64Image mimeType : string) (w : world) :
  exists v w1,
    classify backend c base64Image mimeType w = (Return v, w1)
    /\ requests w1 = (requests w ++ [classifyRequest c base64Image mimeType])%list
    /\ v = match backend (List.length (requests w))
                   (classifyRequest c base64Image mimeType) with
           | Parsed VUndefined | Parsed VNull => VBool false
           | Parsed parsed => prop parsed (flagOf c)
           | _ => VBool false
           end.
Proof.
  destruct c; cbn [classify classifyRequest flagOf];
    unfold isImageOfGlucoseMeter, isImageOfFood, isImageOfWeightScale,
      isImageOfBloodPressureMonitor, try_catch, bind, generateContent;
    (destruct (backend _ _) as [ | | | parsed]; [| | | destruct parsed]);
    cbv [get throw ret console_error bind]; cbn;
    do 2 eexists; repeat split; reflexivity.
Qed.

(** C2: no classifier lets an exception escape: it always returns a value,
    and when the request fails in transport, the response has no text or
    the text is not JSON (or is the JSON [null], whose property cannot be
    read) it returns [false]. *)
Theorem classify_fails_safe
    (c : subject) (base64Image mimeType : string) (w : world) :
  (exists v, fst (classify backend c base64Image mimeType w) = Return v)
  /\ ((forall parsed,
         backend (List.length (requests w))
           (classifyRequest c base64Image mimeType) <> Parsed parsed) ->
      fst (classify backend c base64Image mimeType w) = Return (VBool false))
  /\ (backend (List.length (requests w))
        (classifyRequest c base64Image mimeType) = Parsed VNull ->
      fst (classify backend c base64Image mimeType w) = Return (VBool false)).
Proof.
  destruct (classify_eval c base64Image mimeType w) as (v & w1 & Hrun & _ & Hv).
  rewrite Hrun. cbn [fst]. split; [now exists v|]. split.
  - intros Hfail. rewrite Hv.
    destruct (backend _ _) as [ | | | parsed]; try reflexivity.
    now elim (Hfail parsed).
  - intros Hnull. now rewrite Hv, Hnull.
Qed.

(** ** Extraction from text *)

Lemma extractFromText_eval (k : measurement) (transcript : string) (w : world) :
  fst (extractFromText backend k transcript w) =
  Return match backend (List.length (requests w)) (textRequest k transcript) with
         | Parsed parsed => if validFor k parsed then parsed else VNull
         | _ => VNull
         end.
Proof.
  destruct k; cbn [extractFromText textRequest validFor];
    unfold parseGlucoseReadingFromText, parseWeightFromText,
      parseBloodPressureFromText, try_catch, bind, generateContent, checked;
    destruct (backend _ _) as [ | | | parsed]; try reflexivity;
    match goal with |- context [if ?b then _ else _] => destruct b end;
    reflexivity.
Qed.

(** C3: the three text extractions never raise; they return a non-null
    value only when the backend's document has every required field of the
    request's schema with the correct runtime type (the value returned is
    that document), and they return [null] for any document that misses a
    required field or carries a wrong-typed one. *)
Theorem extractFromText_validates
    (k : measurement) (transcript : string) (w : world) :
  (exists v, fst (extractFromText backend k transcript w) = Return v)
  /\ (forall v,
        fst (extractFromText backend k transcript w) = Return v ->
        v <> VNull ->
        backend (List.length (requests w)) (textRequest k transcript) = Parsed v
        /\ spec_wellTyped (responseSchema (textRequest k transcript)) v = true)
  /\ (forall parsed,
        backend (List.length (requests w)) (textRequest k transcript) = Parsed parsed ->
        spec_wellTyped (responseSchema (textRequest k transcript)) parsed = false ->
        fst (extractFromText backend k transcript w) = Return VNull).
Proof.
  rewrite extractFromText_eval. split; [eauto|]. split.
  - intros v Hv Hnn. injection Hv as Hv.
    destruct (backend _ _) as [ | | | parsed]; try congruence.
    destruct (validFor k parsed) eqn:Hvalid; [|congruence].
    subst v. split; [reflexivity|].
    now apply validFor_wellTyped.
  - intros parsed -> Hbad.
    destruct (validFor k parsed) eqn:Hvalid; [|reflexivity].
    apply (validFor_wellTyped k transcript) in Hvalid. destruct Hvalid. congruence.
Qed.

(** ** Extraction from an image *)

(** An image extraction is its classifier followed by the guarded
    extraction request. *)
Lemma extractFromImage_unfold (c : subject) (base64Image mimeType : string) (w : world) :
  extractFromImage backend c base64Image mimeType w =
  match classify backend c base64Image mimeType w with
  | (Return isIt, w1) =>
      if truthy isIt
      then
        match backend (List.length (requests w1))
                (extractRequest c base64Image mimeType) with
        | Parsed parsed =>
            (Return (if validImage c parsed then parsed else VNull),
             logged (extractRequest c base64Image mimeType) w1)
        | _ =>
            (Return VNull,
             {| requests := (requests w1 ++ [extractRequest c base64Image mimeType])%list;
                console := (console w1 ++
                  [match c with
                   | GlucoseMeter => "Error parsing glucose from image with Gemini:"
                   | Food => "Error analyzing meal photo with Gemini:"
                   | WeightScale => "Error parsing weight from image with Gemini:"
                   | BloodPressureMonitor =>
                       "Error parsing blood pressure from image with Gemini:"
                   end])%list |})
        end
      else (Throw (wrongContent c), w1)
  | (Throw e, w1) => (Throw e, w1)
  end.
Proof.
  destruct c; cbn [extractFromImage classify extractRequest wrongContent validImage];
    unfold parseGlucoseReadingFromImage, analyzeMealPhoto, parseWeightFromImage,
      parseBloodPressureFromImage;
    unfold bind at 1;
    match goal with |- context [match ?m with _ => _ end] => destruct m as [[isIt | e] w1] end;
    try reflexivity;
    destruct (truthy isIt); cbn [negb]; try reflexivity;
    unfold try_catch, bind, generateContent, checked, console_error, ret, logged;
    destruct (backend _ _) as [ | | | parsed]; try reflexivity;
    match goal with |- context [if ?b then _ else _] => destruct b end;
    reflexivity.
Qed.

(** C4: every image extraction first runs its classifier (the first request
    it issues is the classifier's).  When the classifier returns [false]
    (or any falsy value) the extraction raises the "wrong image content"
    error and issues no further request; otherwise it never raises and
    reports an unreadable image (failed or invalid extraction response) as
    the [null] result.  So the raised error occurs exactly when the
    classifier said no. *)
Theorem extractFromImage_wrong_content
    (c : subject) (base64Image mimeType : string) (w : world) :
  exists isIt w1,
    classify backend c base64Image mimeType w = (Return isIt, w1)
    /\ requests w1 = (requests w ++ [classifyRequest c base64Image mimeType])%list
    /\ (truthy isIt = false ->
        extractFromImage backend c base64Image mimeType w
          = (Throw (wrongContent c), w1))
    /\ (truthy isIt = true ->
        exists r w2,
          extractFromImage backend c base64Image mimeType w = (Return r, w2)
          /\ requests w2 = (requests w1 ++ [extractRequest c base64Image mimeType])%list
          /\ ((forall parsed,
                 backend (List.length (requests w1))
                   (extractRequest c base64Image mimeType) = Parsed parsed ->
                 validImage c parsed = false) ->
              r = VNull))
    /\ (fst (extractFromImage backend c base64Image mimeType w)
          = Throw (wrongContent c) <-> truthy isIt = false).
Proof.
  destruct (classify_eval c base64Image mimeType w) as (isIt & w1 & Hrun & Hreq & _).
  exists isIt, w1. rewrite extractFromImage_unfold, Hrun.
  split; [reflexivity|]. split; [assumption|].
  destruct (truthy isIt).
  - split; [discriminate|]. split.
    + intros _.
      destruct (backend _ _) as [ | | | parsed] eqn:Hb;
        do 2 eexists; (split; [reflexivity|]); (split; [reflexivity|]);
        try reflexivity.
      intros Hbad. now rewrite (Hbad parsed eq_refl).
    + destruct (backend _ _); cbn [fst]; split; discriminate.
  - split; [reflexivity|]. split; [discriminate|].
    cbn [fst]. split; reflexivity.
Qed.

End Service.

(** The specification's two examples for [matchMedication]. *)
Example matchMedication_metformin :
  fst (parseMedicationFromText
         (answering (VObj [("name", VStr "metformin"); ("quantity", VNum 2)]))
         asciiLower "Metformin two pills" initialUserMedications emptyWorld)
  = Return (Some {| matchedMed := metformin; quantity := 2 |}).
Proof. reflexivity. Qed.

Example matchMedication_aspirin :
  fst (parseMedicationFromText
         (answering (VObj [("name", VStr "Aspirin"); ("quantity", VNum 1)]))
         asciiLower "Aspirin one" initialUserMedications emptyWorld)
  = Return None.
Proof. reflexivity. Qed.

Lemma parseMedicationFromText_matches_witness :
  exists m,
    fst (parseMedicationFromText
           (answering (VObj [("name", VStr "METFORMIN"); ("quantity", VNum 2)]))
           asciiLower "Metformin two pills" initialUserMedications emptyWorld)
      = Return (Some {| matchedMed := m; quantity := 2 |})
    /\ In m initialUserMedications
    /\ asciiLower (um_name m) = asciiLower "METFORMIN"
    /\ find (sameName asciiLower "METFORMIN") initialUserMedications = Some m.
Proof.
  apply (parseMedicationFromText_matches
           (answering (VObj [("name", VStr "METFORMIN"); ("quantity", VNum 2)]))
           asciiLower "Metformin two pills" (userMedications := initialUserMedications)
           emptyWorld
           (parsed := VObj [("name", VStr "METFORMIN"); ("quantity", VNum 2)])
           (name := "METFORMIN") (q := 2%float)).
  - discriminate.
  - reflexivity.
  - reflexivity.
  - reflexivity.
  - exists metformin. split; [now left | reflexivity].
  - reflexivity.
Defined.

Lemma classify_fails_safe_witness :
  fst (classify unreachable GlucoseMeter "iVBORw0KGgo=" "image/png" emptyWorld)
  = Return (VBool false).
Proof.
  apply (proj1 (proj2 (classify_fails_safe unreachable GlucoseMeter "iVBORw0KGgo="
                         "image/png" emptyWorld))).
  intros parsed. discriminate.
Defined.

Definition glucoseDocument : value :=
  VObj [("value", VNum 150); ("unit", VStr "mg/dL"); ("context", VStr "after_meal")].

Lemma extractFromText_validates_witness :
  answering glucoseDocument 0%nat (AskGlucoseText "My blood sugar is 150 after lunch")
    = Parsed glucoseDocument
  /\ spec_wellTyped
       (responseSchema (AskGlucoseText "My blood sugar is 150 after lunch"))
       glucoseDocument = true.
Proof.
  apply (proj1 (proj2 (extractFromText_validates (answering glucoseDocument) Glucose
                         "My blood sugar is 150 after lunch" emptyWorld))
           glucoseDocument).
  - reflexivity.
  - discriminate.
Defined.

(** The classifier says no: the extraction raises, after one request. *)
Lemma extractFromImage_wrong_content_witness :
  extractFromImage (answering (VObj [("isScale", VBool false)])) WeightScale
    "iVBORw0KGgo=" "image/png" emptyWorld
  = (Throw (Error "Image does not appear to contain a weight scale."),
     {| requests := [AskIsScale "iVBORw0KGgo=" "image/png"]; console := [] |}).
Proof.
  destruct (extractFromImage_wrong_content
              (answering (VObj [("isScale", VBool false)])) WeightScale
              "iVBORw0KGgo=" "image/png" emptyWorld)
    as (isIt & w1 & Hrun & _ & Hno & _).
  injection Hrun as <- <-.
  exact (Hno eq_refl).
Defined.

(** The right kind of photo, unreadable: [null], not an error. *)
Example parseWeightFromImage_unreadable :
  fst (parseWeightFromImage
         (fun n _ => if (n =? 0)%nat then Parsed (VObj [("isScale", VBool true)])
                     else Malformed)
         "iVBORw0KGgo=" "image/png" emptyWorld)
  = Return VNull.
Proof. reflexivity. Qed.

End ServiceProofs.

(* ================================================================== *)
(** * Properties of the combined log *)
(* ================================================================== *)

Module LogProofs.
Import App.

Local Open Scope Z_scope.

(** ** The sort, for a comparator that subtracts keys: [key b - key a] *)

Section NewestFirst.

Variable A : Type.
Variable key : A -> Z.

Let newestFirst (a b : A) : Z := key b - key a.

(** The elements of [l] whose key is [t], in the order of [l]. *)
Definition keyed (t : Z) (l : list A) : list A :=
  filter (fun e => key e =? t) l.

Definition descending (l : list A) : Prop :=
  StronglySorted (fun a b => key b <= key a) l.

Lemma insert_Permutation (x : A) (l : list A) :
  Permutation (insert newestFirst x l) (x :: l).
Proof.
  induction l as [|y rest IH]; cbn [insert]; [reflexivity|].
  destruct (newestFirst x y <=? 0); [reflexivity|].
  rewrite IH. apply perm_swap.
Qed.

Lemma sort_Permutation (l : list A) : Permutation (sort newestFirst l) l.
Proof.
  induction l as [|x rest IH]; cbn [sort fold_right]; [reflexivity|].
  fold (sort newestFirst rest). rewrite insert_Permutation. now constructor.
Qed.

Lemma insert_descending (x : A) (l : list A) :
  descending l -> descending (insert newestFirst x l).
Proof.
  unfold descending, newestFirst.
  induction l as [|y rest IH]; intros Hl; cbn [insert].
  - repeat constructor.
  - destruct (Z.leb_spec (key y - key x) 0) as [Hle | Hgt].
    + constructor; [assumption|]. inversion Hl; subst.
      constructor; [lia|].
      eapply Forall_impl; [|eassumption]. cbn. intros z Hz. lia.
    + inversion Hl; subst. constructor; [now apply IH|].
      eapply Permutation_Forall; [symmetry; apply insert_Permutation|].
      constructor; [lia | assumption].
Qed.

Lemma sort_descending (l : list A) : descending (sort newestFirst l).
Proof.
  induction l as [|x rest IH]; cbn [sort fold_right].
  - constructor.
  - now apply insert_descending.
Qed.

(** Stability: inserting keeps the new element in front of the elements
    with its key, and disturbs no other key class. *)
Lemma insert_keyed (t : Z) (x : A) (l : list A) :
  keyed t (insert newestFirst x l) = keyed t (x :: l).
Proof.
  unfold keyed, newestFirst.
  induction l as [|y rest IH]; cbn [insert]; [reflexivity|].
  destruct (Z.leb_spec (key y - key x) 0) as [Hle | Hgt]; [reflexivity|].
  cbn [filter] in *. rewrite IH.
  destruct (Z.eqb_spec (key x) t) as [Hx | Hx]; [|reflexivity].
  destruct (Z.eqb_spec (key y) t) as [Hy | Hy]; [lia | reflexivity].
Qed.

Lemma sort_keyed (t : Z) (l : list A) :
  keyed t (sort newestFirst l) = keyed t l.
Proof.
  induction l as [|x rest IH]; cbn [sort fold_right]; [reflexivity|].
  fold (sort newestFirst rest). rewrite insert_keyed.
  unfold keyed in *. cbn [filter]. now rewrite IH.
Qed.

Lemma keyed_app (t : Z) (l1 l2 : list A) :
  keyed t (l1 ++ l2) = (keyed t l1 ++ keyed t l2)%list.
Proof. apply filter_app. Qed.

End NewestFirst.

Section Readings.

Variables GlucoseFields MealFields MedicationFields WeightFields
  BloodPressureFields : Type.

Abbreviation state :=
  (state GlucoseFields MealFields MedicationFields WeightFields BloodPressureFields).
Abbreviation append :=
  (append GlucoseFields MealFields MedicationFields WeightFields BloodPressureFields).
Abbreviation LogEntry :=
  (LogEntry GlucoseFields MealFields MedicationFields WeightFields BloodPressureFields).

(** The same appends without the sorting: every list in insertion order. *)
Definition pushed {F} (prefix : string) (now : Z) (reading : Unsaved F)
    (prev : list (Reading F)) : list (Reading F) :=
  prev ++ [withId reading (makeId prefix now)].

Definition insertedAfter (a : append) (s : state) : state :=
  match a with
  | AddGlucoseReading now r =>
      {| glucoseReadings := pushed "g" now r (glucoseReadings s);
         meals := meals s; medications := medications s;
         weightReadings := weightReadings s;
         bloodPressureReadings := bloodPressureReadings s |}
  | AddMeal now m =>
      {| glucoseReadings := glucoseReadings s;
         meals := pushed "m" now m (meals s); medications := medications s;
         weightReadings := weightReadings s;
         bloodPressureReadings := bloodPressureReadings s |}
  | AddMedication now med =>
      {| glucoseReadings := glucoseReadings s;
         meals := meals s; medications := pushed "med" now med (medications s);
         weightReadings := weightReadings s;
         bloodPressureReadings := bloodPressureReadings s |}
  | AddWeightReading now r =>
      {| glucoseReadings := glucoseReadings s;
         meals := meals s; medications := medications s;
         weightReadings := pushed "w" now r (weightReadings s);
         bloodPressureReadings := bloodPressureReadings s |}
  | AddBloodPressureReading now r =>
      {| glucoseReadings := glucoseReadings s;
         meals := meals s; medications := medications s;
         weightReadings := weightReadings s;
         bloodPressureReadings := pushed "bp" now r (bloodPressureReadings s) |}
  end.

Definition insertionOrder (appends : list append) (s : state) : state :=
  fold_left (fun s a => insertedAfter a s) appends s.

(** Two lists of readings with the same elements and the same order inside
    every class of equal timestamps. *)
Definition alike {F} (l l' : list (Reading F)) : Prop :=
  Permutation l l' /\ forall t, keyed (@timestamp F) t l = keyed (@timestamp F) t l'.

Definition alikeStates (s s' : state) : Prop :=
  alike (glucoseReadings s) (glucoseReadings s')
  /\ alike (meals s) (meals s')
  /\ alike (medications s) (medications s')
  /\ alike (weightReadings s) (weightReadings s')
  /\ alike (bloodPressureReadings s) (bloodPressureReadings s').

Lemma alike_refl {F} (l : list (Reading F)) : alike l l.
Proof. split; reflexivity. Qed.

Lemma appended_alike {F} prefix now (reading : Unsaved F) (prev prev' : list (Reading F)) :
  alike prev prev' ->
  alike (appended prefix now reading prev) (pushed prefix now reading prev').
Proof.
  intros [Hperm Hkeyed]. unfold appended, pushed, byNewest. split.
  - rewrite sort_Permutation. now apply Permutation_app_tail.
  - intros t. rewrite sort_keyed, !keyed_app. now rewrite Hkeyed.
Qed.

Lemma apply_alike (a : append) (s s' : state) :
  alikeStates s s' -> alikeStates (apply a s) (insertedAfter a s').
Proof.
  intros (Hg & Hm & Hd & Hw & Hb).
  destruct a; cbn; unfold alikeStates; cbn;
    repeat split; try (apply appended_alike); try apply Hg; try apply Hm;
    try apply Hd; try apply Hw; try apply Hb; assumption.
Qed.

Lemma run_alike (appends : list append) (s s' : state) :
  alikeStates s s' -> alikeStates (run appends s) (insertionOrder appends s').
Proof.
  revert s s'. induction appends as [|a rest IH]; intros s s' H; cbn.
  - assumption.
  - apply IH. now apply apply_alike.
Qed.

Lemma keyed_map {F} (tag : Reading F -> LogEntry)
    (Htag : forall r, getTime (tag r) = timestamp r) (t : Z) (l : list (Reading F)) :
  keyed (@getTime _ _ _ _ _) t (map tag l) = map tag (keyed (@timestamp F) t l).
Proof.
  unfold keyed. induction l as [|r rest IH]; cbn; [reflexivity|].
  rewrite Htag, IH. now destruct (timestamp r =? t).
Qed.

Lemma spread_alike (s s' : state) :
  alikeStates s s' ->
  Permutation (spread s) (spread s')
  /\ forall t, keyed (@getTime _ _ _ _ _) t (spread s)
               = keyed (@getTime _ _ _ _ _) t (spread s').
Proof.
  intros ([Pg Kg] & [Pm Km] & [Pd Kd] & [Pw Kw] & [Pb Kb]). unfold spread. split.
  - repeat apply Permutation_app; now apply Permutation_map.
  - intros t. rewrite !keyed_app, !keyed_map by reflexivity.
    now rewrite Kg, Km, Kd, Kw, Kb.
Qed.

(** C5 (amended): after any interleaving of appends, from any starting
    lists, [combinedLogs] holds exactly the stored readings, in descending
    timestamp order where equal timestamps may sit side by side; readings
    with one timestamp come grouped by kind in the order glucose, meal,
    medication, weight, blood pressure, and inside a kind in insertion
    order. *)
Theorem combinedLogs_descending_stable (s0 : state) (appends : list append) :
  descending (@getTime _ _ _ _ _) (combinedLogs (run appends s0))
  /\ Permutation (combinedLogs (run appends s0)) (spread (insertionOrder appends s0))
  /\ forall t,
       keyed (@getTime _ _ _ _ _) t (combinedLogs (run appends s0))
       = keyed (@getTime _ _ _ _ _) t (spread (insertionOrder appends s0)).
Proof.
  assert (Hstart : alikeStates s0 s0) by (repeat split; reflexivity).
  destruct (spread_alike (run_alike appends Hstart)) as [Hperm Hkeyed].
  unfold combinedLogs, entriesByNewest. repeat split.
  - apply sort_descending.
  - now rewrite sort_Permutation.
  - intros t. now rewrite sort_keyed.
Qed.

(** The claim's words.  "Strictly descending": every entry is strictly
    newer than all entries after it. *)
Definition spec_strictlyDescending (l : list LogEntry) : Prop :=
  StronglySorted (fun a b => getTime b < getTime a) l.

(** The log entries in the order of the [add...] calls that made them. *)
Definition entryOf (a : append) : LogEntry :=
  match a with
  | AddGlucoseReading now r => glucose (withId r (makeId "g" now))
  | AddMeal now m => meal (withId m (makeId "m" now))
  | AddMedication now med => medication (withId med (makeId "med" now))
  | AddWeightReading now r => weight (withId r (makeId "w" now))
  | AddBloodPressureReading now r => blood_pressure (withId r (makeId "bp" now))
  end.

(** "Ties broken stably by insertion order": entries with one timestamp
    stand in the order in which they were appended. *)
Definition spec_tiesByInsertion (appends : list append) (l : list LogEntry) : Prop :=
  forall t, keyed (@getTime _ _ _ _ _) t l
            = keyed (@getTime _ _ _ _ _) t (map entryOf appends).

End Readings.

(** ** A log with three readings of one timestamp *)

Definition noReadings : App.state unit unit unit unit unit :=
  {| glucoseReadings := []; meals := []; medications := [];
     weightReadings := []; bloodPressureReadings := [] |}.

Definition atFive : Unsaved unit := {| u_timestamp := 5; u_fields := tt |}.

(** A meal is logged first, then two glucose readings, all stamped 5. *)
Definition tiedAppends : list (App.append unit unit unit unit unit) :=
  [AddMeal 1 atFive; AddGlucoseReading 2 atFive; AddGlucoseReading 3 atFive].

Example makeId_example : makeId "g" 1700000000000 = "g1700000000000"%string.
Proof. reflexivity. Qed.

Example combinedLogs_tied :
  combinedLogs (run tiedAppends noReadings)
  = [glucose {| id := "g2"; timestamp := 5; fields := tt |};
     glucose {| id := "g3"; timestamp := 5; fields := tt |};
     meal {| id := "m1"; timestamp := 5; fields := tt |}].
Proof. reflexivity. Qed.

(** C5 as stated fails on [tiedAppends]: the combined log is not strictly
    descending, and its tied entries are not in insertion order (the meal,
    appended first, comes last), nor in reverse insertion order. *)
Lemma combinedLogs_ties_counterexample :
  ~ spec_strictlyDescending (combinedLogs (run tiedAppends noReadings))
  /\ ~ spec_tiesByInsertion tiedAppends (combinedLogs (run tiedAppends noReadings))
  /\ combinedLogs (run tiedAppends noReadings) <> rev (map (@entryOf _ _ _ _ _) tiedAppends).
Proof.
  rewrite combinedLogs_tied. repeat split.
  - intros H. inversion H as [|a l _ Hall]; subst.
    inversion Hall as [|b l' Hlt _]; subst. cbn in Hlt. lia.
  - intros H. specialize (H 5). discriminate H.
  - discriminate.
Qed.

End LogProofs.

(* ================================================================== *)
(** * Properties of the voice session *)
(* ================================================================== *)

Module VoiceProofs.
Import GeminiService MedicationLogModal.

Lemma append_assoc (a b c : string) : (a ++ b) ++ c = a ++ (b ++ c).
Proof. induction a as [|ch a IH]; cbn; [reflexivity | now rewrite IH]. Qed.

Lemma append_empty (a : string) : a ++ "" = a.
Proof. induction a as [|ch a IH]; cbn; [reflexivity | now rewrite IH]. Qed.

(** The fragments, joined in arrival order. *)
Definition joined (fragments : list string) : string :=
  fold_right append "" fragments.

(** The transcripts handed to the extraction service, in call order. *)
Fixpoint extractions (trace : list action) : list string :=
  match trace with
  | [] => []
  | ParseMedicationFromText text :: rest => text :: extractions rest
  | _ :: rest => extractions rest
  end.

Lemma extractions_app (t1 t2 : list action) :
  extractions (t1 ++ t2) = (extractions t1 ++ extractions t2)%list.
Proof.
  induction t1 as [|a t1 IH]; cbn; [reflexivity|].
  destruct a; cbn; now rewrite IH.
Qed.

(** The modal with another accumulated transcript. *)
Definition withTranscript (t : string) (s : modal) : modal :=
  {| state := {| voiceStep := voiceStep (state s); medData := medData (state s);
                 currentTranscript := t;
                 isLoading := isLoading (state s); error := error (state s);
                 isListening := isListening (state s) |};
     ref := ref s; rt := rt s |}.

Lemma withTranscript_same (s : modal) : withTranscript (currentTranscript (state s)) s = s.
Proof. now destruct s as [[] ? ?]. Qed.

(** Evaluate handlers, leaving string tests and table lookups alone. *)
Ltac unfold_handlers :=
  cbv -[String.eqb existsb Nat.eqb remove1 promiseOf settle append createBlob]; cbn.

(** Decide the tests the evaluation is stuck on. *)
Ltac split_tests :=
  repeat (first
    [ progress cbn
    | progress rewrite String.eqb_refl
    | progress rewrite Nat.eqb_refl
    | match goal with
      | H : existsb (Nat.eqb ?a) ?l = _ |- context [existsb (Nat.eqb ?a) ?l] =>
          rewrite H
      end
    | match goal with
      | |- context [existsb (Nat.eqb ?a) ?l] =>
          lazymatch l with
          | cons _ _ => fail
          | _ => destruct (existsb (Nat.eqb a) l) eqn:?
          end
      | |- context [String.eqb ?x ""] => destruct (String.eqb x "") eqn:?
      end ];
    unfold_handlers).

(** The claim's words for C8, second half: no frame is sent into a channel
    after the component closed it. *)
Fixpoint sentAfterClose (trace : list action) : bool :=
  match trace with
  | [] => false
  | CloseSession x :: rest =>
      existsb (fun a => match a with
                        | SendRealtimeInput y _ => (x =? y)%nat
                        | _ => false
                        end) rest
      || sentAfterClose rest
  | _ :: rest => sentAfterClose rest
  end.

Definition spec_noFrameIntoClosedChannel (trace : list action) : Prop :=
  sentAfterClose trace = false.

(** ** Teardown *)

(** An invocation of [stopListening] run to its end: the call and, when
    the call awaits [close()], the resolution of that promise. *)
Definition stopListening_completed : handler :=
  stopListening
  >> (fun s => match awaitingClose (rt s) with
               | c :: _ => contextClosed c s
               | [] => skip s
               end).

(** The session is idle: not listening and holding nothing. *)
Definition idle (s : modal) : Prop :=
  isListening (state s) = false
  /\ ref s = {| sessionRef := None; inputAudioContextRef := None;
                scriptProcessorRef := None; streamRef := None |}.

(** The release calls of a trace, in order. *)
Definition isRelease (a : action) : bool :=
  match a with
  | StopTracks _ | Disconnect _ | CloseContext _ | CloseSession _ => true
  | _ => false
  end.

Definition releases (trace : list action) : list action := filter isRelease trace.

(** What a teardown finds to release on a modal: the release calls for the
    handles it holds, in the order [stopListening] tests them.  An audio
    context whose [state] reads ['closed'] is not among them. *)
Definition held (s : modal) : list action :=
  (match streamRef (ref s) with Some k => [StopTracks k] | None => [] end
   ++ match scriptProcessorRef (ref s) with Some p => [Disconnect p] | None => [] end
   ++ match inputAudioContextRef (ref s) with
      | Some c => if mem c (closedContexts (rt s)) then [] else [CloseContext c]
      | None => []
      end
   ++ match sessionRef (ref s) with Some x => [CloseSession x] | None => [] end)%list.

(** The steps of tearing a session down: an invocation of [stopListening]
    (up to its [await]) and the resumption of a suspended invocation when
    the [close()] it awaits resolves.  A list of them is any number of
    invocations, overlapping or one after the other. *)
Inductive teardown : Type :=
| Invoke
| Resume (c : nat).

Definition teardownStep (t : teardown) : handler :=
  match t with
  | Invoke => stopListening
  | Resume c => contextClosed c
  end.

Fixpoint teardownRun (ts : list teardown) : handler :=
  match ts with
  | [] => skip
  | t :: rest => teardownStep t >> teardownRun rest
  end.

Lemma NoDup_app_incl (A : Type) (a h b : list A) :
  NoDup (a ++ h) -> NoDup b -> incl b h -> NoDup (a ++ b).
Proof.
  induction a as [|x a IH]; cbn; intros Hn Hb Hi; [assumption|].
  inversion Hn as [|? ? Hx Hrest]; subst. constructor.
  - intros Hin. apply Hx. apply in_app_iff in Hin. apply in_app_iff.
    destruct Hin as [Hin | Hin]; [now left | right; now apply Hi].
  - now apply IH.
Qed.

Lemma NoDup_held (s : modal) : NoDup (held s).
Proof.
  destruct s as [h [se ctx proc st] [m mic cs hs aw cl]].
  unfold held. cbn [ref rt streamRef scriptProcessorRef inputAudioContextRef
    sessionRef closedContexts].
  destruct st, proc, se, ctx as [c|]; try destruct (mem c cl); cbn [app];
    repeat (apply NoDup_cons; [cbn; intuition discriminate|]); apply NoDup_nil.
Qed.

(** One step releases handles that were held, each once, and what it
    leaves held was held before. *)
Lemma teardownStep_held (t : teardown) (s : modal) :
  NoDup (snd (teardownStep t s) ++ held (fst (teardownStep t s)))
  /\ incl (snd (teardownStep t s) ++ held (fst (teardownStep t s))) (held s).
Proof.
  destruct s as [[vs md ct il er li] [se ctx proc st] [m mic cs hs aw cl]].
  destruct t as [|c0]; destruct m, st, proc, se, ctx as [c|];
    unfold held; unfold_handlers; split_tests;
    (split; [repeat constructor; cbn; intuition discriminate
            | intros z Hz; cbn in Hz |- *; intuition]).
Qed.

Lemma teardownRun_held (ts : list teardown) (s : modal) :
  NoDup (snd (teardownRun ts s) ++ held (fst (teardownRun ts s)))
  /\ incl (snd (teardownRun ts s) ++ held (fst (teardownRun ts s))) (held s).
Proof.
  revert s. induction ts as [|t rest IH]; intros s; cbn [teardownRun].
  - unfold skip. cbn. split; [apply NoDup_held | apply incl_refl].
  - unfold andThen.
    destruct (teardownStep_held t s) as [Hn Hi].
    destruct (teardownStep t s) as [s1 a1]. cbn [fst snd] in Hn, Hi.
    destruct (IH s1) as [Hn2 Hi2].
    destruct (teardownRun rest s1) as [s2 a2]. cbn [fst snd] in *.
    rewrite <- app_assoc. split.
    + now apply NoDup_app_incl with (h := held s1).
    + intros z Hz. apply Hi. apply in_app_iff in Hz. apply in_app_iff.
      destruct Hz as [Hz | Hz]; [now left | right; now apply Hi2].
Qed.

Lemma teardownStep_idle (t : teardown) (s : modal) :
  idle s ->
  idle (fst (teardownStep t s)) /\ state (fst (teardownStep t s)) = state s.
Proof.
  unfold idle.
  destruct s as [[vs md ct il er li] r [m mic cs hs aw cl]].
  cbn. intros [-> ->].
  destruct t as [|c0]; destruct m; unfold_handlers; split_tests; repeat split.
Qed.

Lemma teardownRun_idle (ts : list teardown) (s : modal) :
  idle s ->
  state (fst (teardownRun ts s)) = state s /\ ref (fst (teardownRun ts s)) = ref s.
Proof.
  revert s. induction ts as [|t rest IH]; intros s Hidle; cbn [teardownRun].
  - now split.
  - unfold andThen. destruct (teardownStep_idle t Hidle) as [Hidle1 Hstate].
    destruct (teardownStep t s) as [s1 a1]. cbn [fst snd] in Hidle1, Hstate.
    destruct (IH s1 Hidle1) as [Hs Hr].
    destruct (teardownRun rest s1) as [s2 a2]. cbn [fst snd] in *.
    destruct Hidle as [_ Href], Hidle1 as [_ Href1]. split; congruence.
Qed.

(** Two invocations in a row, the second one made while the first is
    suspended: together they release what was held, in order, and a third
    invocation finds nothing to do. *)
Lemma stopListening_twice (s : modal) :
  snd (teardownRun [Invoke; Invoke] s) = held s
  /\ stopListening (fst (teardownRun [Invoke; Invoke] s))
     = (fst (teardownRun [Invoke; Invoke] s), []).
Proof.
  destruct s as [[vs md ct il er li] [se ctx proc st] [m mic cs hs aw cl]].
  destruct m, st, proc, se, ctx as [c|];
    unfold held; unfold_handlers; split_tests; split; reflexivity.
Qed.

(** C7: [stopListening] is idempotent.  Whatever the modal holds, and for
    any number of invocations, made one after the other or while earlier
    ones are still suspended at [await close()], with the suspended ones
    resumed at any point: no release call is made twice, and every release
    call made is for a handle the modal held when the first invocation
    started, so a handle that was never acquired or is already released is
    not touched.  Two invocations in a row release together exactly what
    was held, and a further invocation changes nothing; on an idle session
    every invocation is a no-op on the cells and the handles. *)
Theorem stopListening_idempotent (s : modal) (calls : list teardown) :
  NoDup (snd (teardownRun calls s))
  /\ incl (snd (teardownRun calls s)) (held s)
  /\ snd (teardownRun [Invoke; Invoke] s) = held s
  /\ stopListening (fst (teardownRun [Invoke; Invoke] s))
     = (fst (teardownRun [Invoke; Invoke] s), [])
  /\ (idle s ->
      snd (teardownRun calls s) = []
      /\ state (fst (teardownRun calls s)) = state s
      /\ ref (fst (teardownRun calls s)) = ref s).
Proof.
  destruct (teardownRun_held calls s) as [Hn Hi].
  destruct (stopListening_twice s) as [Htwice Hthird].
  split; [now apply NoDup_app_remove_r in Hn|].
  split; [intros z Hz; apply Hi, in_app_iff; now left|].
  split; [assumption|]. split; [assumption|].
  intros Hidle. destruct (teardownRun_idle calls Hidle) as [Hs Hr].
  split; [|now split].
  assert (Hheld : held s = []).
  { destruct Hidle as [_ Href]. unfold held. now rewrite Href. }
  rewrite Hheld in Hi.
  destruct (snd (teardownRun calls s)) as [|z rest]; [reflexivity|].
  elim (Hi z (or_introl eq_refl)).
Qed.

(** When a handler leaves the [useState] cells alone, no effect runs. *)
Lemma commit_same_cells (before after : modal) :
  state after = state before -> commit before after = (after, []).
Proof.
  intros H. unfold commit, dependenciesChanged. rewrite H.
  rewrite Bool.eqb_reflx, String.eqb_refl. cbn.
  now rewrite andb_false_r.
Qed.

Lemma append_same_empty (t x : string) : t ++ x = t -> x = "".
Proof. induction t as [|c t IH]; cbn; [auto | intros [= H]; auto]. Qed.

Lemma append_is_empty (t x : string) : t ++ x = "" -> x = "".
Proof. destruct t; cbn; [auto | discriminate]. Qed.

(** The transcripts handed to the extraction when the texts [late] are
    appended, one after the other, to the transcript [t] of a session that
    is not listening: one hand-over for every text that is not empty. *)
Fixpoint handovers (t : string) (late : list string) : list string :=
  match late with
  | [] => []
  | x :: rest =>
      if x =? "" then handovers t rest
      else (t ++ x) :: handovers (t ++ x) rest
  end.

Section Voice.

Variable Samples : Type.
Variable encodePcm : Samples -> string.

Abbreviation event := (event Samples).
Abbreviation step := (step encodePcm).
Abbreviation run := (run encodePcm).

(** A transcript fragment arriving on the channel. *)
Definition fragment (text : string) : event := Message _ (Some (Some text)).

Lemma run_app (evs1 evs2 : list event) (s : modal) :
  run (evs1 ++ evs2) s =
  let (s1, a1) := run evs1 s in
  let (s2, a2) := run evs2 s1 in
  (s2, (a1 ++ a2)%list).
Proof.
  revert s. induction evs1 as [|ev evs1 IH]; intros s; cbn [app MedicationLogModal.run].
  - unfold skip. now destruct (run evs2 s).
  - unfold andThen. destruct (step ev s) as [s1 a1]. rewrite IH.
    destruct (run evs1 s1) as [s2 a2]. destruct (run evs2 s2) as [s3 a3].
    now rewrite app_assoc.
Qed.

(** While the session listens, a fragment is appended to the transcript and
    nothing else happens. *)
Lemma step_fragment (text t : string) (s : modal) :
  mounted (rt s) = true ->
  isListening (state s) = true ->
  step (fragment text) (withTranscript t s) = (withTranscript (t ++ text) s, []).
Proof.
  intros Hm Hl. destruct s as [[vs md ct il er li] r [m mic cs hs aw cl]].
  cbn in Hm, Hl. subst m li.
  unfold MedicationLogModal.step, andThen, handle, fragment, onmessage, assign, commit,
    setCurrentTranscript, setState, withTranscript.
  cbn. now rewrite !andb_false_r.
Qed.

Lemma run_fragments (fragments : list string) (t : string) (s : modal) :
  mounted (rt s) = true ->
  isListening (state s) = true ->
  run (map fragment fragments) (withTranscript t s)
  = (withTranscript (t ++ joined fragments) s, []).
Proof.
  intros Hm Hl. revert t.
  induction fragments as [|text rest IH]; intros t; cbn [map MedicationLogModal.run joined fold_right].
  - now rewrite append_empty.
  - unfold andThen. rewrite step_fragment by assumption.
    fold (MedicationLogModal.run encodePcm). rewrite IH. now rewrite append_assoc.
Qed.

(** The two ways a listening session is stopped with its transcript kept:
    the stop action and a channel error. *)
Definition stops (ev : event) : Prop :=
  ev = ToggleListen _ \/ ev = ChannelError _.

(** What can reach a stopped session before it is started again or reset:
    messages of the channel that is being closed, the end of the channel,
    straggler audio frames, the resolution of [close()] and the answer of
    the extraction. *)
Definition afterStop (ev : event) : Prop :=
  match ev with
  | Message _ _ | ChannelClose _ | AudioProcess _ _ | ContextClosed _ _
  | ParseSettled _ _ _ => True
  | _ => False
  end.

(** The text an event appends to the transcript. *)
Definition textOf (ev : event) : string :=
  match ev with
  | Message _ (Some (Some text)) => text
  | Message _ (Some None) => "undefined"
  | _ => ""
  end.

(** The stop itself: the session stops listening, keeps its transcript and
    hands it to the extraction if it is not empty. *)
Lemma step_stop (ev : event) (s : modal) :
  stops ev ->
  mounted (rt s) = true ->
  isListening (state s) = true ->
  mounted (rt (fst (step ev s))) = true
  /\ isListening (state (fst (step ev s))) = false
  /\ currentTranscript (state (fst (step ev s))) = currentTranscript (state s)
  /\ extractions (snd (step ev s))
     = if currentTranscript (state s) =? "" then []
       else [currentTranscript (state s)].
Proof.
  intros Hev Hm Hl.
  destruct s as [[vs md ct il er li] [se ctx proc st] [m mic cs hs aw cl]].
  cbn in Hm, Hl. subst m li.
  destruct Hev as [-> | ->];
    destruct st, proc, se, ctx as [c'|];
    unfold_handlers; split_tests; repeat split.
Qed.

(** A message that reaches a session that is not listening. *)
Lemma step_late_text (text : string) (s : modal) :
  mounted (rt s) = true ->
  isListening (state s) = false ->
  mounted (rt (fst (step (fragment text) s))) = true
  /\ isListening (state (fst (step (fragment text) s))) = false
  /\ currentTranscript (state (fst (step (fragment text) s)))
     = currentTranscript (state s) ++ text
  /\ extractions (snd (step (fragment text) s))
     = if text =? "" then [] else [currentTranscript (state s) ++ text].
Proof.
  intros Hm Hl.
  destruct s as [[vs md ct il er li] r [m mic cs hs aw cl]].
  cbn in Hm, Hl. subst m li.
  destruct (String.eqb_spec text "") as [-> | Htext].
  - unfold_handlers. rewrite !append_empty, String.eqb_refl. cbn. repeat split.
  - assert (H1 : (ct =? ct ++ text) = false).
    { apply String.eqb_neq. intros H. symmetry in H.
      now apply append_same_empty in H. }
    assert (H2 : (ct ++ text =? "") = false).
    { apply String.eqb_neq. intros H. now apply append_is_empty in H. }
    unfold_handlers. rewrite H1, H2. cbn. repeat split.
Qed.

Lemma step_afterStop (ev : event) (s : modal) :
  afterStop ev ->
  mounted (rt s) = true ->
  isListening (state s) = false ->
  mounted (rt (fst (step ev s))) = true
  /\ isListening (state (fst (step ev s))) = false
  /\ currentTranscript (state (fst (step ev s)))
     = currentTranscript (state s) ++ textOf ev
  /\ extractions (snd (step ev s))
     = if textOf ev =? "" then [] else [currentTranscript (state s) ++ textOf ev].
Proof.
  intros Hev Hm Hl.
  destruct ev as [ | stream | | k | k | k | [[text|]|] | | | k inputData | c
                 | text [[r|]|e] | | | ]; try contradiction;
    try (apply (@step_late_text text s Hm Hl));
    try (apply (@step_late_text "undefined" s Hm Hl));
    cbn [textOf]; rewrite ?append_empty;
    destruct s as [[vs md ct il er li] [se ctx proc st] [m mic cs hs aw cl]];
    cbn in Hm, Hl; subst m li; destruct se;
    unfold_handlers; split_tests;
    repeat match goal with
           | |- context [match promiseOf ?k ?table with _ => _ end] =>
               destruct (promiseOf k table) as [[]|]; split_tests
           end;
    repeat split.
Qed.

Lemma run_afterStop (late : list event) (s : modal) :
  Forall afterStop late ->
  mounted (rt s) = true ->
  isListening (state s) = false ->
  extractions (snd (run late s))
  = handovers (currentTranscript (state s)) (map textOf late).
Proof.
  intros Hlate. revert s.
  induction Hlate as [|ev rest Hev _ IH]; intros s Hm Hl;
    cbn [MedicationLogModal.run map handovers]; [reflexivity|].
  unfold andThen.
  destruct (@step_afterStop ev s Hev Hm Hl) as (Hm1 & Hl1 & Ht1 & He1).
  destruct (step ev s) as [s1 a1]. cbn [fst snd] in Hm1, Hl1, Ht1, He1.
  specialize (IH s1 Hm1 Hl1).
  destruct (run rest s1) as [s2 a2]. cbn [fst snd] in IH |- *.
  rewrite extractions_app, He1, IH, Ht1.
  destruct (String.eqb_spec (textOf ev) "") as [Hempty | _]; [|reflexivity].
  now rewrite Hempty, append_empty.
Qed.

Lemma handovers_silent (t : string) (late : list string) :
  Forall (fun x => x = "") late -> handovers t late = [].
Proof.
  induction 1 as [|x rest -> _ IH]; [reflexivity | exact IH].
Qed.

(** C6 (amended): from a listening session, fragments are appended to the
    accumulated transcript in arrival order and nothing is handed to the
    extraction while the session listens.  When the session is stopped
    (stop action or channel error) the accumulated transcript is handed to
    the extraction once if it is not empty; every text that arrives after
    the stop is appended as well, and each one that is not empty hands the
    longer transcript to the extraction again.  The transcript is handed
    over exactly once when it is not empty at the stop and no text arrives
    afterwards. *)
Theorem transcript_handed_over
    (s : modal) (fragments : list string) (stop : event) (late : list event) :
  mounted (rt s) = true ->
  isListening (state s) = true ->
  stops stop ->
  Forall afterStop late ->
  currentTranscript (state (fst (run (map fragment fragments) s)))
    = currentTranscript (state s) ++ joined fragments
  /\ extractions (snd (run (map fragment fragments) s)) = []
  /\ extractions (snd (run (map fragment fragments ++ stop :: late) s))
     = app (if currentTranscript (state s) ++ joined fragments =? "" then []
            else [currentTranscript (state s) ++ joined fragments])
           (handovers (currentTranscript (state s) ++ joined fragments)
              (map textOf late))
  /\ (currentTranscript (state s) ++ joined fragments <> "" ->
      Forall (fun ev => textOf ev = "") late ->
      extractions (snd (run (map fragment fragments ++ stop :: late) s))
      = [currentTranscript (state s) ++ joined fragments]).
Proof.
  intros Hm Hl Hstop Hlate.
  pose proof (run_fragments fragments (currentTranscript (state s)) s Hm Hl) as Hfr.
  rewrite withTranscript_same in Hfr.
  set (t := currentTranscript (state s) ++ joined fragments) in *.
  assert (Hall :
    extractions (snd (run (map fragment fragments ++ stop :: late) s))
    = app (if t =? "" then [] else [t]) (handovers t (map textOf late))).
  { rewrite run_app, Hfr.
    assert (Hm0 : mounted (rt (withTranscript t s)) = true) by exact Hm.
    assert (Hl0 : isListening (state (withTranscript t s)) = true) by exact Hl.
    cbn [MedicationLogModal.run]. unfold andThen.
    destruct (@step_stop stop (withTranscript t s) Hstop Hm0 Hl0)
      as (Hm1 & Hl1 & Ht1 & He1).
    destruct (step stop (withTranscript t s)) as [s1 a1].
    cbn [fst snd] in Hm1, Hl1, Ht1, He1.
    pose proof (@run_afterStop late s1 Hlate Hm1 Hl1) as He2.
    destruct (run late s1) as [s2 a2]. cbn [fst snd app] in He2 |- *.
    rewrite extractions_app, He1, He2, Ht1. reflexivity. }
  rewrite Hfr. cbn [fst snd]. split; [reflexivity|]. split; [reflexivity|].
  split; [assumption|].
  intros Hne Hsilent. rewrite Hall.
  apply String.eqb_neq in Hne. rewrite Hne.
  rewrite handovers_silent; [reflexivity|].
  now apply Forall_map.
Qed.

(** The modal is dismissed ([isOpen] turns false) or unmounted. *)
Definition dismissal (ev : event) : Prop :=
  ev = Dismiss _ \/ ev = Unmount _.

(** A dismissal of a modal that holds no handle releases nothing and asks
    for no extraction. *)
Lemma dismissal_nothing_held (s : modal) (ev : event) :
  dismissal ev ->
  ref s = {| sessionRef := None; inputAudioContextRef := None;
             scriptProcessorRef := None; streamRef := None |} ->
  snd (step ev s) = [].
Proof.
  intros Hev Href.
  destruct s as [[vs md ct il er li] r [m mic cs hs aw cl]].
  cbn in Href. subst r.
  destruct Hev as [-> | ->]; destruct m, li; unfold_handlers; split_tests; reflexivity.
Qed.

(** The dismissal of a session that holds its four handles, up to the end
    of the teardown. *)
Lemma dismissal_teardown (s : modal) (ev : event) (st p c x : nat) :
  dismissal ev ->
  mounted (rt s) = true ->
  awaitingClose (rt s) = [] ->
  mem c (closedContexts (rt s)) = false ->
  ref s = {| sessionRef := Some x; inputAudioContextRef := Some c;
             scriptProcessorRef := Some p; streamRef := Some st |} ->
  snd (run [ev; ContextClosed _ c] s)
    = [StopTracks st; Disconnect p; CloseContext c; CloseSession x]
  /\ ref (fst (run [ev; ContextClosed _ c] s))
     = {| sessionRef := None; inputAudioContextRef := None;
          scriptProcessorRef := None; streamRef := None |}.
Proof.
  intros Hev Hm Haw Hc Href.
  destruct s as [[vs md ct il er li] r [m mic cs hs aw cl]].
  cbn in Hm, Haw, Hc, Href. subst m aw r. unfold mem in Hc.
  destruct Hev as [-> | ->]; destruct li; unfold_handlers; rewrite !Hc;
    split_tests; split; reflexivity.
Qed.

(** The dismissal of an established session, run to its end, releases the
    stream, the script processor, the audio context and the channel, in
    that order; a later dismissal releases nothing more. *)
Lemma dismissal_of_established_session
    (s : modal) (ev ev' : event) (st p c x : nat) :
  dismissal ev ->
  dismissal ev' ->
  mounted (rt s) = true ->
  awaitingClose (rt s) = [] ->
  mem c (closedContexts (rt s)) = false ->
  ref s = {| sessionRef := Some x; inputAudioContextRef := Some c;
             scriptProcessorRef := Some p; streamRef := Some st |} ->
  snd (run [ev; ContextClosed _ c] s) = held s
  /\ snd (run [ev; ContextClosed _ c; ev'] s) = held s.
Proof.
  intros Hev Hev' Hm Haw Hc Href.
  assert (Hheld : held s = [StopTracks st; Disconnect p; CloseContext c; CloseSession x]).
  { unfold held. rewrite Href. cbn. now rewrite Hc. }
  rewrite Hheld.
  destruct (dismissal_teardown s Hev Hm Haw Hc Href) as [Htrace Hrefs].
  split; [assumption|].
  change [ev; ContextClosed Samples c; ev'] with ([ev; ContextClosed Samples c] ++ [ev'])%list.
  rewrite run_app.
  destruct (run [ev; ContextClosed Samples c] s) as [s1 a1].
  cbn [fst snd] in Htrace, Hrefs. subst a1.
  pose proof (dismissal_nothing_held s1 Hev' Hrefs) as Hnone.
  cbn [MedicationLogModal.run]. unfold andThen, skip.
  destruct (step ev' s1) as [s2 a2]. cbn [snd] in Hnone |- *. subst a2.
  reflexivity.
Qed.

(** C8 (amended): the frame callback has no guard on the session state.
    Once its session promise has resolved, every callback that fires sends
    its frame with [sendRealtimeInput] and changes nothing in the
    component, whether the session is listening, draining or idle, and
    whether or not the channel has been closed.  What keeps frames away
    from a closed channel is the order of the teardown alone:
    [stopListening] stops the tracks, disconnects the script processor and
    closes the audio context before it closes the channel. *)
Theorem onaudioprocess_always_sends (s : modal) (k : nat) (inputData : Samples) :
  mem k (handlers (rt s)) = true ->
  promiseOf k (connections (rt s)) = Some Fulfilled ->
  step (AudioProcess k inputData) s
    = (s, [SendRealtimeInput k (createBlob encodePcm inputData)])
  /\ (forall st p c x,
        awaitingClose (rt s) = [] ->
        mem c (closedContexts (rt s)) = false ->
        ref s = {| sessionRef := Some x; inputAudioContextRef := Some c;
                   scriptProcessorRef := Some p; streamRef := Some st |} ->
        snd (stopListening_completed s)
          = [StopTracks st; Disconnect p; CloseContext c; CloseSession x]).
Proof.
  intros Hh Hp.
  destruct s as [[vs md ct il er li] r [m mic cs hs aw cl]].
  cbn in Hh, Hp. unfold mem in Hh. split.
  - unfold MedicationLogModal.step, andThen, handle, onaudioprocess, commit,
      dependenciesChanged, call, skip.
    cbn. unfold mem. rewrite Hh, Hp. cbn.
    rewrite Bool.eqb_reflx, String.eqb_refl. cbn.
    now rewrite andb_false_r.
  - intros st p c x Haw Hc Href. cbn in Haw, Hc, Href. subst aw r.
    unfold mem in Hc. destruct m; unfold_handlers; rewrite !Hc; split_tests;
      reflexivity.
Qed.

(** The claim's words for C8: a frame callback that fires when the session
    is no longer listening is discarded, *)
Definition spec_stragglerDiscarded (s : modal) (k : nat) (inputData : Samples) : Prop :=
  isListening (state s) = false ->
  snd (step (AudioProcess k inputData) s) = [].

(** What the specification's words ask of a stopped session: the
    accumulated transcript is handed to the extraction exactly once. *)
Definition spec_handedOverOnce (trace : list action) (transcript : string) : Prop :=
  extractions trace = [transcript].

End Voice.

(** ** Concrete sessions *)

(** Frames are irrelevant to the payload in these runs. *)
Definition noPcm : unit -> string := fun _ => "".

(** Start, microphone granted, channel open, session ready. *)
Definition established : list (event unit) :=
  [ToggleListen _; MicrophoneGranted _ 1; ChannelOpened _ 1; SessionReady _ 1].

Definition listeningSession : modal := fst (run noPcm established initial).

Example listeningSession_refs :
  ref listeningSession
  = {| sessionRef := Some 1%nat; inputAudioContextRef := Some 1%nat;
       scriptProcessorRef := Some 1%nat; streamRef := Some 1%nat |}
  /\ isListening (state listeningSession) = true.
Proof. split; reflexivity. Qed.

(** The specification's example: three fragments, then stop. *)
Example metformin_two_pills :
  snd (run noPcm
         (map (@fragment unit) ["Metformin"; " two"; " pills"]
          ++ [ToggleListen _; ContextClosed _ 1])
         listeningSession)
  = [StopTracks 1; Disconnect 1; CloseContext 1;
     ParseMedicationFromText "Metformin two pills"; CloseSession 1].
Proof. reflexivity. Qed.

Lemma transcript_handed_over_witness :
  extractions
    (snd (run noPcm
            (map (@fragment unit) ["Metformin"; " two"; " pills"]
             ++ [ToggleListen _; ContextClosed _ 1; ChannelClose _])
            listeningSession))
  = ["Metformin two pills"].
Proof.
  apply (proj2 (proj2 (proj2
    (@transcript_handed_over unit noPcm listeningSession
       ["Metformin"; " two"; " pills"] (ToggleListen _)
       [ContextClosed _ 1; ChannelClose _]
       eq_refl eq_refl (or_introl eq_refl)
       (Forall_cons (ContextClosed unit 1) I
          (Forall_cons (ChannelClose unit) I (Forall_nil _))))))).
  - discriminate.
  - repeat constructor.
Defined.

(** C6 as stated fails: text that arrives after the stop, while the
    channel is still being closed, is appended too, and the extraction is
    invoked a second time, with the longer transcript.  No transcript is
    handed over exactly once. *)
Lemma late_fragment_counterexample :
  ~ exists transcript,
      spec_handedOverOnce
        (snd (run noPcm
                (map (@fragment unit) ["Metformin"; " two"]
                 ++ [ToggleListen _; fragment _ " pills"; ContextClosed _ 1])
                listeningSession))
        transcript.
Proof.
  intros [transcript H]. unfold spec_handedOverOnce in H.
  vm_compute in H. discriminate H.
Qed.

(** Two invocations while the first [close()] is pending, its resolution,
    and one more invocation. *)
Definition overlappingCalls : list teardown := [Invoke; Invoke; Resume 1; Invoke].

Lemma stopListening_idempotent_witness :
  NoDup (snd (teardownRun overlappingCalls listeningSession))
  /\ snd (teardownRun [Invoke; Invoke] listeningSession)
     = [StopTracks 1; Disconnect 1; CloseContext 1; CloseSession 1]
  /\ (snd (teardownRun overlappingCalls initial) = []
      /\ state (fst (teardownRun overlappingCalls initial)) = state initial
      /\ ref (fst (teardownRun overlappingCalls initial)) = ref initial).
Proof.
  split; [apply (stopListening_idempotent listeningSession overlappingCalls)|].
  split; [apply (stopListening_idempotent listeningSession overlappingCalls)|].
  apply (stopListening_idempotent initial overlappingCalls).
  split; reflexivity.
Defined.

Example stopListening_overlapping :
  snd (teardownRun overlappingCalls listeningSession)
  = [StopTracks 1; Disconnect 1; CloseContext 1; CloseSession 1].
Proof. reflexivity. Qed.

Example stopListening_releases :
  snd (stopListening_completed listeningSession)
  = [StopTracks 1; Disconnect 1; CloseContext 1; CloseSession 1].
Proof. reflexivity. Qed.

Example stopListening_idle : stopListening_completed initial = (initial, []).
Proof. reflexivity. Qed.

(** Stop pressed before the microphone permission resolved: nothing is
    held, nothing is released. *)
Example stopListening_before_permission :
  snd (run noPcm [ToggleListen _; ToggleListen _] initial) = [GetUserMedia].
Proof. reflexivity. Qed.

Example established_session_unmounted :
  snd (run noPcm [Unmount _; ContextClosed _ 1; Dismiss _] listeningSession)
  = [StopTracks 1; Disconnect 1; CloseContext 1; CloseSession 1].
Proof.
  exact (proj2
    (@dismissal_of_established_session unit noPcm listeningSession
       (Unmount _) (Dismiss _) 1 1 1 1
       (or_intror eq_refl) (or_introl eq_refl)
       eq_refl eq_refl eq_refl eq_refl)).
Qed.

(** A fragment that arrives after the stop action, while the teardown is
    still closing the channel, is appended as well, and the longer
    transcript is handed to the extraction a second time. *)
Example late_fragment_parsed_again :
  extractions
    (snd (run noPcm
            [fragment _ "Metformin"; ToggleListen _; fragment _ " two";
             ContextClosed _ 1]
            listeningSession))
  = ["Metformin"; "Metformin two"].
Proof. vm_compute. reflexivity. Qed.

(** The session has been started and waits for the microphone
    permission: it is listening and holds nothing yet. *)
Definition acquiringSession : modal := fst (run noPcm [ToggleListen _] initial).

(** What happens after the dismissal: the permission is granted, the
    channel opens, the session promise fulfils and a frame is captured. *)
Definition acquisition : list (event unit) :=
  [MicrophoneGranted _ 1; ChannelOpened _ 1; SessionReady _ 1; AudioProcess 1 tt].

(** C9 fails on the code when the modal is dismissed or unmounted while
    the listening session is still acquiring its resources.  The teardown
    runs at once, finds every handle empty and releases nothing;
    [startListening] then goes on after its [await]s without looking at the
    session again: it stores the stream, builds the audio graph, stores
    the channel session and sends frames.  Nothing is ever released, and
    the modal ends up not listening while it holds all four handles. *)
Theorem dismissed_while_acquiring :
  isListening (state acquiringSession) = true
  /\ held acquiringSession = []
  /\ releases (snd (run noPcm (Dismiss _ :: acquisition) acquiringSession)) = []
  /\ releases (snd (run noPcm (Unmount _ :: acquisition) acquiringSession)) = []
  /\ snd (run noPcm (Dismiss _ :: acquisition) acquiringSession)
     = [Connect 1; CreateAudioGraph 1; SendRealtimeInput 1 (createBlob noPcm tt)]
  /\ isListening (state (fst (run noPcm (Dismiss _ :: acquisition) acquiringSession)))
     = false
  /\ held (fst (run noPcm (Dismiss _ :: acquisition) acquiringSession))
     = [StopTracks 1; Disconnect 1; CloseContext 1; CloseSession 1]
  /\ held (fst (run noPcm (Unmount _ :: acquisition) acquiringSession))
     = [StopTracks 1; Disconnect 1; CloseContext 1; CloseSession 1].
Proof. vm_compute. repeat split. Qed.

(** The session after the stop action, while [close()] is pending. *)
Definition drainingSession : modal :=
  fst (run noPcm [ToggleListen _] listeningSession).

Example drainingSession_not_listening :
  isListening (state drainingSession) = false
  /\ awaitingClose (rt drainingSession) = [1%nat]
  /\ sessionRef (ref drainingSession) = Some 1%nat.
Proof. repeat split. Qed.

Lemma onaudioprocess_always_sends_witness :
  step noPcm (AudioProcess 1 tt) drainingSession
  = (drainingSession, [SendRealtimeInput 1 (createBlob noPcm tt)]).
Proof.
  exact (proj1 (onaudioprocess_always_sends noPcm drainingSession 1 tt
                  eq_refl eq_refl)).
Defined.

(** C8 as stated fails: a frame callback that fires while the stopped
    session drains is sent, not discarded; and one that fires after the
    teardown has closed the channel is sent into the closed channel. *)
Lemma straggler_frame_counterexample :
  ~ spec_stragglerDiscarded noPcm drainingSession 1 tt
  /\ ~ spec_noFrameIntoClosedChannel
         (snd (run noPcm [ToggleListen _; ContextClosed _ 1; AudioProcess 1 tt]
                 listeningSession)).
Proof.
  split.
  - intros H. specialize (H eq_refl). discriminate H.
  - unfold spec_noFrameIntoClosedChannel. cbn. discriminate.
Qed.

End VoiceProofs.

(* ================================================================== *)
(** * Further properties of the extraction service *)
(* ================================================================== *)

Module ServiceExtras.
Import Js GeminiService ServiceProofs.

(** The answer of the backend is not a parsed document: the request was
    rejected, the response had no text, or the text was not JSON. *)
Definition failed (o : outcome) : bool :=
  match o with Parsed _ => false | _ => true end.

Lemma matchParsed_sound (toLowerCase : string -> string)
    (userMedications : list UserMedication) (parsed : value) (r : MedicationMatch) :
  matchParsed toLowerCase userMedications parsed = Some r ->
  In (matchedMed r) userMedications
  /\ PrimFloat.ltb 0%float (quantity r) = true
  /\ prop parsed "quantity" = VNum (quantity r)
  /\ exists name, prop parsed "name" = VStr name
                  /\ toLowerCase (um_name (matchedMed r)) = toLowerCase name.
Proof.
  unfold matchParsed.
  destruct (truthy parsed && _ && _); [|discriminate].
  destruct (prop parsed "name") as [ | | | | name | | ]; try discriminate.
  destruct (prop parsed "quantity") as [ | | | q | | | ]; try discriminate.
  destruct (PrimFloat.ltb 0%float q) eqn:Hpos; [|discriminate].
  destruct (find _ _) as [m|] eqn:Hfind; [|discriminate].
  intros [= <-]. cbn. apply find_some in Hfind. destruct Hfind as [Hin Hs].
  unfold sameName in Hs. apply String.eqb_eq in Hs. eauto 6.
Qed.

Section Service.

Variable backend : nat -> request -> outcome.
Variable toLowerCase : string -> string.

Lemma parseMedicationFromText_result
    (transcript : string) (userMedications : list UserMedication) (w : world) :
  exists r,
    fst (parseMedicationFromText backend toLowerCase transcript userMedications w)
      = Return r
    /\ forall m, r = Some m ->
         In (matchedMed m) userMedications
         /\ PrimFloat.ltb 0%float (quantity m) = true
         /\ exists parsed name,
              backend (List.length (requests w))
                (AskMedicationText (map um_name userMedications) transcript)
                = Parsed parsed
              /\ prop parsed "name" = VStr name
              /\ prop parsed "quantity" = VNum (quantity m)
              /\ toLowerCase (um_name (matchedMed m)) = toLowerCase name.
Proof.
  destruct userMedications as [|m0 ms] eqn:Hums.
  - exists None. split; [reflexivity | discriminate].
  - rewrite <- Hums.
    assert (Hne : userMedications <> []) by (rewrite Hums; discriminate).
    rewrite (parseMedicationFromText_eval backend toLowerCase transcript w Hne).
    eexists. split; [reflexivity|].
    intros m Hm. destruct (backend _ _) as [ | | | parsed]; try discriminate.
    destruct (matchParsed_sound _ _ _ Hm) as (Hin & Hpos & Hq & name & Hn & Hci).
    repeat split; try assumption. now exists parsed, name.
Qed.

(** X1: whatever the backend answers and whatever the catalog holds,
    [parseMedicationFromText] returns (it never raises), and a match it
    returns is an entry of the catalog with a quantity [> 0], both taken
    from a parsed response whose name equals the entry's name up to case. *)
Theorem parseMedicationFromText_sound
    (transcript : string) (userMedications : list UserMedication) (w : world) :
  exists r,
    fst (parseMedicationFromText backend toLowerCase transcript userMedications w)
      = Return r
    /\ forall m, r = Some m ->
         In (matchedMed m) userMedications
         /\ PrimFloat.ltb 0%float (quantity m) = true
         /\ exists parsed name,
              backend (List.length (requests w))
                (AskMedicationText (map um_name userMedications) transcript)
                = Parsed parsed
              /\ prop parsed "name" = VStr name
              /\ prop parsed "quantity" = VNum (quantity m)
              /\ toLowerCase (um_name (matchedMed m)) = toLowerCase name.
Proof.
  apply parseMedicationFromText_result.
Qed.

(** X2: on a non-empty catalog [parseMedicationFromText] issues exactly one
    request, carrying the catalog names in catalog order and the
    transcript; it writes one diagnostic line exactly when the response
    failed, and none when a parsed response merely matches nothing. *)
Theorem parseMedicationFromText_one_request
    (transcript : string) (userMedications : list UserMedication) (w : world) :
  userMedications <> [] ->
  snd (parseMedicationFromText backend toLowerCase transcript userMedications w)
  = {| requests := requests w
                   ++ [AskMedicationText (map um_name userMedications) transcript];
       console :=
         if failed (backend (List.length (requests w))
                      (AskMedicationText (map um_name userMedications) transcript))
         then console w ++ ["Error parsing medication from text with Gemini:"]
         else console w |}.
Proof.
  intros Hne. unfold parseMedicationFromText.
  destruct userMedications as [|m ms]; [congruence|].
  cbn [List.length Nat.eqb].
  unfold try_catch, bind, generateContent, console_error, ret.
  destruct (backend _ _); reflexivity.
Qed.

End Service.

Section Extraction.

Variable backend : nat -> request -> outcome.

(** ** One request per text extraction *)

Definition textDiagnostic (k : measurement) : string :=
  match k with
  | Glucose => "Error parsing glucose reading with Gemini:"
  | Weight => "Error parsing weight from text with Gemini:"
  | BloodPressure => "Error parsing blood pressure from text with Gemini:"
  end.

(** X3: every text extraction (glucose, weight, blood pressure, meal)
    issues exactly one request and writes one diagnostic line exactly when
    the response failed; a response that parses but is rejected by the
    validation returns [null] silently. *)
Theorem text_extraction_one_request
    (k : measurement) (transcript : string) (w : world) :
  snd (extractFromText backend k transcript w)
  = {| requests := requests w ++ [textRequest k transcript];
       console := if failed (backend (List.length (requests w))
                               (textRequest k transcript))
                  then console w ++ [textDiagnostic k]
                  else console w |}
  /\ snd (parseMealFromText backend transcript w)
     = {| requests := requests w ++ [AskMealText transcript];
          console := if failed (backend (List.length (requests w))
                                  (AskMealText transcript))
                     then console w ++ ["Error parsing meal from text with Gemini:"]
                     else console w |}.
Proof.
  split.
  - destruct k; cbn [extractFromText textRequest textDiagnostic];
      unfold parseGlucoseReadingFromText, parseWeightFromText,
        parseBloodPressureFromText, try_catch, bind, generateContent, checked,
        console_error, ret;
      destruct (backend _ _) as [ | | | parsed]; try reflexivity;
      match goal with |- context [if ?b then _ else _] => destruct b end;
      reflexivity.
  - unfold parseMealFromText, try_catch, bind, generateContent, checked,
      console_error, ret.
    destruct (backend _ _) as [ | | | parsed]; try reflexivity.
    destruct (validMeal parsed); reflexivity.
Qed.

(** ** What each validation accepts *)

Lemma validWeight_iff (v : value) :
  validWeight v = true
  <-> (exists x, prop v "value" = VNum x)
      /\ (prop v "unit" = VStr "kg" \/ prop v "unit" = VStr "lbs").
Proof.
  unfold validWeight. rewrite !andb_true_iff, orb_true_iff. split.
  - intros [[_ Hv] Hu]. split.
    + now apply typeof_number.
    + destruct (prop v "unit") as [ | | | | s | | ]; cbn in Hu;
        try (destruct Hu; discriminate).
      destruct Hu as [Hu | Hu]; apply String.eqb_eq in Hu; subst; auto.
  - intros [[x Hx] Hu].
    destruct (prop_defined_object v "value") as [props ->]; [congruence|].
    cbn in Hx, Hu |- *. rewrite Hx.
    destruct Hu as [-> | ->]; cbn; auto.
Qed.

(** X4: [parseWeightFromText] returns a document exactly when the backend
    produced it, its [value] is a number and its [unit] is the string
    ['kg'] or ['lbs']; a unit that is any other string is rejected although
    the response schema only asks for a string. *)
Theorem parseWeightFromText_accepts (transcript : string) (w : world) (v : value) :
  (fst (parseWeightFromText backend transcript w) = Return v /\ v <> VNull)
  <-> (backend (List.length (requests w)) (AskWeightText transcript) = Parsed v
       /\ (exists x, prop v "value" = VNum x)
       /\ (prop v "unit" = VStr "kg" \/ prop v "unit" = VStr "lbs")).
Proof.
  pose proof (extractFromText_eval backend Weight transcript w) as Heval.
  cbn [extractFromText textRequest validFor] in Heval. rewrite Heval.
  rewrite <- validWeight_iff. split.
  - intros [Hret Hnn]. injection Hret as Hret.
    destruct (backend _ _) as [ | | | parsed]; try congruence.
    destruct (validWeight parsed) eqn:Hvalid; [|congruence].
    subst v. auto.
  - intros [-> Hvalid]. rewrite Hvalid. split; [reflexivity|].
    apply validWeight_iff in Hvalid. destruct Hvalid as [[x Hx] _].
    intros ->. discriminate Hx.
Qed.

Lemma hasType_number_typeof v :
  spec_hasType TNumber v = true -> (typeof v =? "number") = true.
Proof. destruct v; cbn; congruence. Qed.

Lemma hasType_string_typeof v :
  spec_hasType TString v = true -> (typeof v =? "string") = true.
Proof. destruct v; cbn; congruence. Qed.

(** X5: for glucose and blood pressure the validation is complete: every
    response that has the required fields of the schema with their types is
    returned unchanged.  Weight is the exception: its validation also
    restricts the unit. *)
Theorem extractFromText_complete
    (k : measurement) (transcript : string) (w : world) (doc : value) :
  k <> Weight ->
  backend (List.length (requests w)) (textRequest k transcript) = Parsed doc ->
  spec_wellTyped (responseSchema (textRequest k transcript)) doc = true ->
  fst (extractFromText backend k transcript w) = Return doc.
Proof.
  intros Hk Hb Hwt. rewrite extractFromText_eval, Hb.
  enough (validFor k doc = true) as -> by reflexivity.
  destruct k; [ | congruence | ];
    cbn [textRequest responseSchema validFor] in *;
    (destruct doc as [ | | | | | | props]; try discriminate Hwt);
    cbn in Hwt; rewrite !andb_true_iff in Hwt;
    unfold validGlucose, validBloodPressure; cbn;
    rewrite !andb_true_iff.
  - destruct Hwt as (Hv & Hu & Hc & _).
    auto using hasType_number_typeof, hasType_string_typeof.
  - destruct Hwt as (Hs & Hd & Hp & _).
    auto using hasType_number_typeof.
Qed.

(** X6: [parseMealFromText] returns a document exactly when the backend
    produced it, its [foodItems] is an array and its [totalNutrition] is
    truthy; nothing inside the array or the totals is inspected. *)
Theorem parseMealFromText_accepts (transcript : string) (w : world) (v : value) :
  (fst (parseMealFromText backend transcript w) = Return v /\ v <> VNull)
  <-> (backend (List.length (requests w)) (AskMealText transcript) = Parsed v
       /\ isArray (prop v "foodItems") = true
       /\ truthy (prop v "totalNutrition") = true).
Proof.
  unfold parseMealFromText, try_catch, bind, generateContent, checked,
    console_error, ret.
  destruct (backend _ _) as [ | | | parsed]; cbn [fst];
    try (split; [intros [[= <-] Hnn]; congruence | intros [Hb _]; discriminate]).
  assert (Hvalid : validMeal parsed = true
                   <-> isArray (prop parsed "foodItems") = true
                       /\ truthy (prop parsed "totalNutrition") = true).
  { unfold validMeal. rewrite !andb_true_iff. split; [tauto|].
    intros [Ha Ht]. repeat split; try assumption.
    destruct parsed; try discriminate Ha. reflexivity. }
  destruct (validMeal parsed) eqn:Hv; cbn [fst]; split.
  - intros [[= <-] _]. split; [reflexivity|]. now apply Hvalid.
  - intros [[= <-] _]. split; [reflexivity|].
    intros ->. destruct Hvalid as [Hvalid _].
    specialize (Hvalid eq_refl). destruct Hvalid; discriminate.
  - intros [[= <-] Hnn]. congruence.
  - intros [[= <-] Hok]. apply Hvalid in Hok. discriminate.
Qed.

(** ** Image extraction, request by request *)

Definition classifyDiagnostic (c : subject) : string :=
  match c with
  | GlucoseMeter => "Error validating glucose meter image:"
  | Food => "Error validating food image:"
  | WeightScale => "Error validating weight scale image:"
  | BloodPressureMonitor => "Error validating blood pressure monitor image:"
  end.

(** X7: when the classification request itself fails (transport, missing
    text, malformed JSON) the image extraction raises the same "wrong image
    content" error as for a photo of the wrong subject, after that single
    request and one diagnostic line: a caller cannot tell an unreachable
    backend from a wrong photo. *)
Theorem extractFromImage_unreachable_is_wrong_content
    (c : subject) (base64Image mimeType : string) (w : world) :
  failed (backend (List.length (requests w))
            (classifyRequest c base64Image mimeType)) = true ->
  extractFromImage backend c base64Image mimeType w
  = (Throw (wrongContent c),
     {| requests := requests w ++ [classifyRequest c base64Image mimeType];
        console := console w ++ [classifyDiagnostic c] |}).
Proof.
  intros Hfail.
  destruct c; cbn [extractFromImage classifyRequest wrongContent classifyDiagnostic] in *;
    unfold parseGlucoseReadingFromImage, analyzeMealPhoto, parseWeightFromImage,
      parseBloodPressureFromImage, isImageOfGlucoseMeter, isImageOfFood,
      isImageOfWeightScale, isImageOfBloodPressureMonitor,
      try_catch, bind, generateContent, console_error, ret, throw;
    destruct (backend _ _); try discriminate Hfail; reflexivity.
Qed.

(** X8: the extraction proceeds on any truthy value of the classifier's
    flag, not only on [true]; when the second response then passes the
    validation it is returned unchanged, after exactly two requests
    (classification, then extraction) and without any diagnostic line. *)
Theorem extractFromImage_success
    (c : subject) (base64Image mimeType : string) (w : world)
    (answer doc : value) :
  backend (List.length (requests w)) (classifyRequest c base64Image mimeType)
    = Parsed answer ->
  truthy (prop answer (flagOf c)) = true ->
  backend (S (List.length (requests w))) (extractRequest c base64Image mimeType)
    = Parsed doc ->
  validImage c doc = true ->
  extractFromImage backend c base64Image mimeType w
  = (Return doc,
     {| requests := requests w ++ [classifyRequest c base64Image mimeType;
                                   extractRequest c base64Image mimeType];
        console := console w |}).
Proof.
  intros Ha Hflag Hd Hvalid.
  destruct (prop_defined_object answer (flagOf c)) as [props ->].
  { intros Hu. rewrite Hu in Hflag. discriminate. }
  destruct c; cbn [extractFromImage classifyRequest extractRequest flagOf validImage] in *;
    unfold parseGlucoseReadingFromImage, analyzeMealPhoto, parseWeightFromImage,
      parseBloodPressureFromImage, isImageOfGlucoseMeter, isImageOfFood,
      isImageOfWeightScale, isImageOfBloodPressureMonitor,
      try_catch, bind, generateContent, get, checked, console_error, ret, throw;
    rewrite Ha; cbn [prop requests console]; cbn [prop] in Hflag; rewrite Hflag;
    cbn [negb requests console];
    rewrite length_app, Nat.add_comm; cbn [List.length Nat.add];
    rewrite Hd, Hvalid, <- app_assoc; reflexivity.
Qed.

End Extraction.

(** ** Runs on concrete backends *)

Lemma parseMedicationFromText_one_request_witness :
  snd (parseMedicationFromText unreachable asciiLower "Metformin two pills"
         initialUserMedications emptyWorld)
  = {| requests := [AskMedicationText
                      ["Metformin"; "Insulin Aspart (NovoRapid)"; "Gliclazide"]
                      "Metformin two pills"];
       console := ["Error parsing medication from text with Gemini:"] |}.
Proof.
  apply (parseMedicationFromText_one_request unreachable asciiLower
           "Metformin two pills" (userMedications := initialUserMedications)
           emptyWorld).
  discriminate.
Defined.

Definition stoneDocument : value :=
  VObj [("value", VNum 11); ("unit", VStr "st")].

Definition kiloDocument : value :=
  VObj [("value", VNum 72.5); ("unit", VStr "kg")].

(** A weight in stones has the schema's types and is rejected. *)
Example parseWeightFromText_stones :
  spec_wellTyped weightSchema stoneDocument = true
  /\ fst (parseWeightFromText (answering stoneDocument) "eleven stone" emptyWorld)
     = Return VNull.
Proof. split; reflexivity. Qed.

Lemma parseWeightFromText_accepts_witness :
  fst (parseWeightFromText (answering kiloDocument) "72.5 kilos" emptyWorld)
    = Return kiloDocument
  /\ kiloDocument <> VNull.
Proof.
  apply (proj2 (parseWeightFromText_accepts (answering kiloDocument)
                  "72.5 kilos" emptyWorld kiloDocument)).
  split; [reflexivity|]. split; [now exists 72.5%float | now left].
Defined.

Definition pressureDocument : value :=
  VObj [("systolic", VNum 120); ("diastolic", VNum 80); ("pulse", VNum 65)].

Lemma extractFromText_complete_witness :
  fst (extractFromText (answering pressureDocument) BloodPressure
         "120 over 80 with a pulse of 65" emptyWorld)
  = Return pressureDocument.
Proof.
  apply (extractFromText_complete (answering pressureDocument) (k := BloodPressure)
           "120 over 80 with a pulse of 65" emptyWorld (doc := pressureDocument)).
  - discriminate.
  - reflexivity.
  - reflexivity.
Defined.

(** Food items that are numbers and totals that are a string pass. *)
Definition looseMeal : value :=
  VObj [("foodItems", VArr [VNum 1; VNum 2]); ("totalNutrition", VStr "plenty")].

Lemma parseMealFromText_accepts_witness :
  fst (parseMealFromText (answering looseMeal) "porridge" emptyWorld)
    = Return looseMeal
  /\ looseMeal <> VNull.
Proof.
  apply (proj2 (parseMealFromText_accepts (answering looseMeal) "porridge"
                  emptyWorld looseMeal)).
  repeat split.
Defined.

Lemma extractFromImage_unreachable_is_wrong_content_witness :
  extractFromImage unreachable Food "iVBORw0KGgo=" "image/png" emptyWorld
  = (Throw (Error "Image does not appear to contain food."),
     {| requests := [AskIsFood "iVBORw0KGgo=" "image/png"];
        console := ["Error validating food image:"] |}).
Proof.
  apply (extractFromImage_unreachable_is_wrong_content unreachable Food
           "iVBORw0KGgo=" "image/png" emptyWorld).
  reflexivity.
Defined.

(** The classifier answers with the string "yes"; the monitor is read. *)
Definition monitorBackend : nat -> request -> outcome :=
  fun n _ => if (n =? 0)%nat then Parsed (VObj [("isMonitor", VStr "yes")])
             else Parsed pressureDocument.

Lemma extractFromImage_success_witness :
  extractFromImage monitorBackend BloodPressureMonitor "iVBORw0KGgo=" "image/png"
    emptyWorld
  = (Return pressureDocument,
     {| requests := [AskIsMonitor "iVBORw0KGgo=" "image/png";
                     AskBloodPressureImage "iVBORw0KGgo=" "image/png"];
        console := [] |}).
Proof.
  apply (extractFromImage_success monitorBackend BloodPressureMonitor
           "iVBORw0KGgo=" "image/png" emptyWorld
           (answer := VObj [("isMonitor", VStr "yes")]) (doc := pressureDocument));
    reflexivity.
Defined.

End ServiceExtras.

(* ================================================================== *)
(** * Properties of the medication catalog *)
(* ================================================================== *)

Module CatalogProofs.
Import GeminiService Catalog.

Lemma append_cancel (p a b : string) : p ++ a = p ++ b -> a = b.
Proof. induction p as [|c p IH]; cbn; [auto | intros [= H]; auto]. Qed.

Lemma to_int_regular (z : Z) :
  Z.to_int z <> Decimal.Pos Decimal.Nil /\ Z.to_int z <> Decimal.Neg Decimal.Nil.
Proof.
  destruct z as [|p|p]; cbn; split; try discriminate;
    intros [= H]; now apply (Unsigned.to_uint_nonnil p).
Qed.

(** X9: identifiers are injective in the clock: two identifiers made with
    one prefix are equal only if [Date.now()] gave the same value, so two
    entries collide exactly when they are created in the same
    millisecond. *)
Theorem makeId_injective (prefix : string) (now now' : Z) :
  App.makeId prefix now = App.makeId prefix now' <-> now = now'.
Proof.
  split; [|now intros ->].
  unfold App.makeId. intros H. apply append_cancel in H.
  apply (f_equal NilZero.int_of_string) in H.
  destruct (to_int_regular now) as [H1 H2], (to_int_regular now') as [H3 H4].
  rewrite !NilZero.isi in H by assumption.
  injection H as H. now apply to_int_inj.
Qed.

Lemma sameId_true (i : string) (m : UserMedication) :
  sameId (Some i) m = true <-> um_id m = i.
Proof. cbn. apply String.eqb_eq. Qed.

Lemma delete_absent (id : string) (prev : list UserMedication) :
  (forall m, In m prev -> um_id m <> id) -> deleteUserMedication id prev = prev.
Proof.
  unfold deleteUserMedication.
  intros Habsent. induction prev as [|m rest IH]; cbn; [reflexivity|].
  destruct (String.eqb_spec (um_id m) id) as [Heq | Hne]; cbn.
  - elim (Habsent m (or_introl eq_refl) Heq).
  - f_equal. apply IH. intros m' Hin. apply Habsent. now right.
Qed.

(** [kept] is [all] with some of its entries struck out: what it keeps
    stands in the order it has in [all]. *)
Inductive subsequence (A : Type) : list A -> list A -> Prop :=
| subsequence_nil : subsequence [] []
| subsequence_strike (x : A) (kept all : list A) :
    subsequence kept all -> subsequence kept (x :: all)
| subsequence_keep (x : A) (kept all : list A) :
    subsequence kept all -> subsequence (x :: kept) (x :: all).

(** X10: [deleteUserMedication] removes every entry with the given id and
    only those, keeping the others in their order: the result is the
    catalog with entries struck out, it holds exactly the entries with
    another id, and what was struck out carries the given id.  Deleting an
    id that is not in the catalog changes nothing, and deleting twice is
    deleting once. *)
Theorem deleteUserMedication_removes (id : string) (prev : list UserMedication) :
  (forall m, In m (deleteUserMedication id prev) <-> In m prev /\ um_id m <> id)
  /\ subsequence (deleteUserMedication id prev) prev
  /\ (exists gone, Permutation prev (deleteUserMedication id prev ++ gone)
                   /\ Forall (fun m => um_id m = id) gone)
  /\ ((forall m, In m prev -> um_id m <> id) -> deleteUserMedication id prev = prev)
  /\ deleteUserMedication id (deleteUserMedication id prev)
     = deleteUserMedication id prev.
Proof.
  split; [|split; [|split; [|split]]]; unfold deleteUserMedication.
  - intros m. rewrite filter_In, negb_true_iff, String.eqb_neq. tauto.
  - induction prev as [|m rest IH]; cbn; [constructor|].
    destruct (um_id m =? id); cbn; now constructor.
  - exists (filter (fun m => um_id m =? id) prev). split.
    + induction prev as [|m rest IH]; cbn; [constructor|].
      destruct (um_id m =? id); cbn.
      * now apply Permutation_cons_app.
      * now constructor.
    + apply Forall_forall. intros m Hin. apply filter_In in Hin.
      now apply String.eqb_eq.
  - apply (@delete_absent id prev).
  - induction prev as [|m rest IH]; cbn; [reflexivity|].
    destruct (um_id m =? id) eqn:Hid; cbn; [assumption|].
    rewrite Hid. cbn. now f_equal.
Qed.

Definition edited (i : string) (med : Draft) (m : UserMedication) : UserMedication :=
  if um_id m =? i
  then {| um_id := i; um_name := d_name med;
          um_dosage := d_dosage med; um_unit := d_unit med |}
  else m.

Lemma save_known
    (now : Z) (med : Draft) (i : string) (prev : list UserMedication) :
  d_id med = Some i ->
  (exists m, In m prev /\ um_id m = i) ->
  saveUserMedication now med prev = map (edited i med) prev.
Proof.
  intros Hid [m0 [Hin0 Hm0]]. unfold saveUserMedication. rewrite Hid.
  destruct (find (sameId (Some i)) prev) as [existing|] eqn:Hfind.
  - unfold merged, edited. rewrite Hid. reflexivity.
  - pose proof (find_none _ _ Hfind m0 Hin0) as Hno.
    apply sameId_true in Hm0. congruence.
Qed.

Lemma save_fresh
    (now : Z) (med : Draft) (prev : list UserMedication) :
  (forall i, d_id med = Some i -> forall m, In m prev -> um_id m <> i) ->
  saveUserMedication now med prev = (prev ++ [created now med])%list.
Proof.
  intros Hnew. unfold saveUserMedication.
  destruct (find (sameId (d_id med)) prev) as [existing|] eqn:Hfind; [|reflexivity].
  apply find_some in Hfind. destruct Hfind as [Hin Hsame].
  destruct (d_id med) as [i|] eqn:Hid; [|discriminate].
  apply sameId_true in Hsame. elim (Hnew i eq_refl existing Hin Hsame).
Qed.

(** X11: saving a draft whose id is in the catalog edits in place: the
    catalog keeps its length, its ids and their order; every entry with
    that id becomes the draft's name, dosage and unit, and every other
    entry is untouched. *)
Theorem saveUserMedication_edits
    (now : Z) (med : Draft) (i : string) (prev : list UserMedication) :
  d_id med = Some i ->
  (exists m, In m prev /\ um_id m = i) ->
  map um_id (saveUserMedication now med prev) = map um_id prev
  /\ saveUserMedication now med prev
     = map (fun m => if um_id m =? i
                     then {| um_id := i; um_name := d_name med;
                             um_dosage := d_dosage med; um_unit := d_unit med |}
                     else m) prev.
Proof.
  intros Hid Hin. rewrite (@save_known now med i prev Hid Hin).
  split; [|reflexivity].
  rewrite map_map. apply map_ext_in. intros m _. unfold edited.
  destruct (String.eqb_spec (um_id m) i); cbn; congruence.
Qed.

(** X12: saving a draft that has no id, or an id that is not in the
    catalog, appends one entry at the end with the draft's fields and the
    generated id [um<clock>]; an id the draft brought is discarded. *)
Theorem saveUserMedication_appends
    (now : Z) (med : Draft) (prev : list UserMedication) :
  (forall i, d_id med = Some i -> forall m, In m prev -> um_id m <> i) ->
  saveUserMedication now med prev
  = (prev ++ [{| um_id := App.makeId "um" now; um_name := d_name med;
                 um_dosage := d_dosage med; um_unit := d_unit med |}])%list.
Proof.
  intros Hnew. now rewrite save_fresh.
Qed.

(** X13: a new entry can be taken back: saving a draft without id and then
    deleting the generated id gives the catalog as it was, provided no
    stored entry already carries that id. *)
Theorem save_then_delete
    (now : Z) (med : Draft) (prev : list UserMedication) :
  d_id med = None ->
  (forall m, In m prev -> um_id m <> App.makeId "um" now) ->
  deleteUserMedication (App.makeId "um" now) (saveUserMedication now med prev) = prev.
Proof.
  intros Hid Hfresh.
  rewrite save_fresh by (rewrite Hid; discriminate).
  unfold deleteUserMedication. rewrite filter_app. cbn.
  rewrite String.eqb_refl. cbn. rewrite app_nil_r.
  now apply delete_absent.
Qed.

(** X14: two drafts saved in the same millisecond get the same id, and a
    later edit addressed to that id overwrites both entries with the same
    data. *)
Theorem same_millisecond_overwrite
    (now later : Z) (first second edit : Draft) (prev : list UserMedication) :
  d_id first = None ->
  d_id second = None ->
  d_id edit = Some (App.makeId "um" now) ->
  (forall m, In m prev -> um_id m <> App.makeId "um" now) ->
  saveUserMedication later edit
    (saveUserMedication now second (saveUserMedication now first prev))
  = (prev ++ [{| um_id := App.makeId "um" now; um_name := d_name edit;
                 um_dosage := d_dosage edit; um_unit := d_unit edit |};
              {| um_id := App.makeId "um" now; um_name := d_name edit;
                 um_dosage := d_dosage edit; um_unit := d_unit edit |}])%list.
Proof.
  intros H1 H2 He Hfresh.
  rewrite (@save_fresh now first) by (rewrite H1; discriminate).
  rewrite (@save_fresh now second) by (rewrite H2; discriminate).
  rewrite <- app_assoc. cbn [app].
  rewrite (@save_known later edit (App.makeId "um" now) _ He).
  2:{ exists (created now first). split; [|reflexivity].
      apply in_or_app. right. now left. }
  rewrite map_app. cbn [map]. unfold edited at 2 3. cbn [um_id created].
  rewrite String.eqb_refl. f_equal. unfold edited.
  transitivity (map (fun m : UserMedication => m) prev); [|apply map_id].
  apply map_ext_in. intros m Hin.
  destruct (String.eqb_spec (um_id m) (App.makeId "um" now)) as [Heq|]; [|reflexivity].
  elim (Hfresh m Hin Heq).
Qed.

(** ** Runs on the catalog the application starts with *)

Definition clock : Z := 1700000000000.

Definition extendedRelease : Draft :=
  {| d_id := Some "um1"; d_name := "Metformin XR";
     d_dosage := 750%float; d_unit := "mg" |}.

Definition aspirin : Draft :=
  {| d_id := None; d_name := "Aspirin"; d_dosage := 75%float; d_unit := "mg" |}.

Definition paracetamol : Draft :=
  {| d_id := None; d_name := "Paracetamol"; d_dosage := 500%float; d_unit := "mg" |}.

Definition strayId : Draft :=
  {| d_id := Some "um9"; d_name := "Aspirin"; d_dosage := 75%float; d_unit := "mg" |}.

Lemma initial_ids (P : string -> Prop) :
  P "um1" -> P "um2" -> P "um3" ->
  forall m, In m ServiceProofs.initialUserMedications -> P (um_id m).
Proof.
  intros H1 H2 H3 m [<- | [<- | [<- | []]]]; assumption.
Qed.

Lemma makeId_injective_witness :
  App.makeId "um" clock = App.makeId "um" (clock + 1)%Z <-> clock = (clock + 1)%Z.
Proof. apply (makeId_injective "um" clock (clock + 1)%Z). Defined.

Lemma deleteUserMedication_removes_witness :
  subsequence (deleteUserMedication "um2" ServiceProofs.initialUserMedications)
    ServiceProofs.initialUserMedications
  /\ deleteUserMedication "um9" ServiceProofs.initialUserMedications
     = ServiceProofs.initialUserMedications
  /\ deleteUserMedication "um2"
       (deleteUserMedication "um2" ServiceProofs.initialUserMedications)
     = deleteUserMedication "um2" ServiceProofs.initialUserMedications.
Proof.
  destruct (deleteUserMedication_removes "um2" ServiceProofs.initialUserMedications)
    as (_ & Hsub & _ & _ & Htwice).
  destruct (deleteUserMedication_removes "um9" ServiceProofs.initialUserMedications)
    as (_ & _ & _ & Hsame & _).
  split; [exact Hsub|]. split; [|exact Htwice].
  apply Hsame, (@initial_ids (fun id => id <> "um9")); discriminate.
Defined.

Example deleteUserMedication_second :
  map um_id (deleteUserMedication "um2" ServiceProofs.initialUserMedications)
  = ["um1"; "um3"].
Proof. reflexivity. Qed.

Lemma saveUserMedication_edits_witness :
  map um_id (saveUserMedication clock extendedRelease
               ServiceProofs.initialUserMedications)
  = ["um1"; "um2"; "um3"]
  /\ nth_error (saveUserMedication clock extendedRelease
                  ServiceProofs.initialUserMedications) 0
     = Some {| um_id := "um1"; um_name := "Metformin XR";
               um_dosage := 750%float; um_unit := "mg" |}.
Proof.
  destruct (@saveUserMedication_edits clock extendedRelease "um1"
              ServiceProofs.initialUserMedications eq_refl) as [Hids Hsave].
  - exists ServiceProofs.metformin. split; [now left | reflexivity].
  - split; [exact Hids | rewrite Hsave; reflexivity].
Defined.

Lemma saveUserMedication_appends_witness :
  saveUserMedication clock strayId ServiceProofs.initialUserMedications
  = (ServiceProofs.initialUserMedications
     ++ [{| um_id := "um1700000000000"; um_name := "Aspirin";
            um_dosage := 75%float; um_unit := "mg" |}])%list.
Proof.
  apply (@saveUserMedication_appends clock strayId
           ServiceProofs.initialUserMedications).
  intros i [= <-]. apply (@initial_ids (fun id => id <> "um9")); discriminate.
Defined.

Lemma save_then_delete_witness :
  deleteUserMedication "um1700000000000"
    (saveUserMedication clock aspirin ServiceProofs.initialUserMedications)
  = ServiceProofs.initialUserMedications.
Proof.
  apply (@save_then_delete clock aspirin ServiceProofs.initialUserMedications).
  - reflexivity.
  - apply (@initial_ids (fun id => id <> App.makeId "um" clock));
      intros H; vm_compute in H; discriminate.
Defined.

Lemma same_millisecond_overwrite_witness :
  map um_name
    (saveUserMedication (clock + 5000)%Z
       {| d_id := Some "um1700000000000"; d_name := "Ibuprofen";
          d_dosage := 200%float; d_unit := "mg" |}
       (saveUserMedication clock paracetamol
          (saveUserMedication clock aspirin ServiceProofs.initialUserMedications)))
  = ["Metformin"; "Insulin Aspart (NovoRapid)"; "Gliclazide";
     "Ibuprofen"; "Ibuprofen"].
Proof.
  rewrite (@same_millisecond_overwrite clock (clock + 5000)%Z aspirin paracetamol).
  - reflexivity.
  - reflexivity.
  - reflexivity.
  - reflexivity.
  - apply (@initial_ids (fun id => id <> App.makeId "um" clock));
      intros H; vm_compute in H; discriminate.
Defined.

End CatalogProofs.

(* ================================================================== *)
(** * Further properties of the reading lists *)
(* ================================================================== *)

Module LogExtras.
Import App LogProofs.

Local Open Scope Z_scope.

(** In a descending list, an element strictly above all others is first. *)
Lemma descending_head (A : Type) (key : A -> Z) (x : A) (others sorted : list A) :
  Permutation sorted (x :: others) ->
  descending key sorted ->
  (forall e, In e others -> key e < key x) ->
  hd_error sorted = Some x.
Proof.
  intros Hperm Hdesc Hnewer.
  destruct sorted as [|h t].
  - apply Permutation_nil in Hperm. discriminate.
  - cbn. f_equal.
    assert (Hh : In h (x :: others)).
    { eapply Permutation_in; [exact Hperm | now left]. }
    destruct Hh as [Hh | Hh]; [now symmetry|].
    assert (Hx : In x (h :: t)).
    { eapply Permutation_in; [symmetry; exact Hperm | now left]. }
    destruct Hx as [Hx | Hx]; [assumption|].
    unfold descending in Hdesc. inversion Hdesc as [|? ? _ Hall]; subst.
    rewrite Forall_forall in Hall. specialize (Hall x Hx).
    specialize (Hnewer h Hh). lia.
Qed.

Lemma appended_Permutation
    (F : Type) (prefix : string) (now : Z) (reading : Unsaved F)
    (prev : list (Reading F)) :
  Permutation (appended prefix now reading prev)
    (withId reading (makeId prefix now) :: prev).
Proof.
  unfold appended, byNewest. rewrite sort_Permutation. symmetry.
  apply Permutation_cons_append.
Qed.

(** X15: every [add...] reducer leaves its list sorted newest first whatever
    order the list had before; the list then holds the previous readings and
    the new one (with its generated id), and the new reading stands after
    the stored readings that carry the same timestamp. *)
Theorem appended_sorted
    (F : Type) (prefix : string) (now : Z) (reading : Unsaved F)
    (prev : list (Reading F)) :
  descending (@timestamp F) (appended prefix now reading prev)
  /\ Permutation (appended prefix now reading prev)
       (withId reading (makeId prefix now) :: prev)
  /\ forall t,
       keyed (@timestamp F) t (appended prefix now reading prev)
       = (keyed (@timestamp F) t prev
          ++ keyed (@timestamp F) t [withId reading (makeId prefix now)])%list.
Proof.
  repeat split.
  - apply sort_descending.
  - apply appended_Permutation.
  - intros t. unfold appended, byNewest. now rewrite sort_keyed, keyed_app.
Qed.

Section Middle.

Variable A : Type.

Lemma middle2 (a : A) (l1 l2 : list A) :
  Permutation (l1 ++ a :: l2) (a :: l1 ++ l2).
Proof. symmetry. apply Permutation_middle. Qed.

Lemma middle3 (a : A) (l1 l2 l3 : list A) :
  Permutation (l1 ++ l2 ++ a :: l3) (a :: l1 ++ l2 ++ l3).
Proof. rewrite (app_assoc l1 l2 (a :: l3)), (app_assoc l1 l2 l3). apply middle2. Qed.

Lemma middle4 (a : A) (l1 l2 l3 l4 : list A) :
  Permutation (l1 ++ l2 ++ l3 ++ a :: l4) (a :: l1 ++ l2 ++ l3 ++ l4).
Proof. rewrite (app_assoc l2 l3 (a :: l4)), (app_assoc l2 l3 l4). apply middle3. Qed.

Lemma middle5 (a : A) (l1 l2 l3 l4 l5 : list A) :
  Permutation (l1 ++ l2 ++ l3 ++ l4 ++ a :: l5) (a :: l1 ++ l2 ++ l3 ++ l4 ++ l5).
Proof. rewrite (app_assoc l3 l4 (a :: l5)), (app_assoc l3 l4 l5). apply middle4. Qed.

End Middle.

Section Readings.

Variables GlucoseFields MealFields MedicationFields WeightFields
  BloodPressureFields : Type.

Abbreviation state :=
  (state GlucoseFields MealFields MedicationFields WeightFields BloodPressureFields).
Abbreviation append :=
  (append GlucoseFields MealFields MedicationFields WeightFields BloodPressureFields).

Lemma appended_map (F : Type) (B : Type) (tag : Reading F -> B)
    (prefix : string) (now : Z) (reading : Unsaved F) (prev : list (Reading F)) :
  Permutation (map tag (appended prefix now reading prev))
    (tag (withId reading (makeId prefix now)) :: map tag prev).
Proof.
  change (tag (withId reading (makeId prefix now)) :: map tag prev)
    with (map tag (withId reading (makeId prefix now) :: prev)).
  apply Permutation_map. apply appended_Permutation.
Qed.

Lemma spread_apply (a : append) (s : state) :
  Permutation (spread (apply a s)) (entryOf a :: spread s).
Proof.
  destruct a; unfold spread; cbn [apply addGlucoseReading addMeal addMedication
    addWeightReading addBloodPressureReading glucoseReadings meals medications
    weightReadings bloodPressureReadings entryOf];
    rewrite appended_map; cbn [app].
  - reflexivity.
  - apply middle2.
  - apply middle3.
  - apply middle4.
  - apply middle5.
Qed.

(** X16: a reading that is strictly newer than everything stored, of any of
    the five kinds, is the first entry of the combined log after it is
    appended. *)
Theorem newest_reading_first (a : append) (s : state) :
  (forall e, In e (spread s) -> getTime e < getTime (entryOf a)) ->
  hd_error (combinedLogs (apply a s)) = Some (entryOf a).
Proof.
  intros Hnewer.
  apply descending_head with (key := @getTime _ _ _ _ _) (others := spread s).
  - unfold combinedLogs, entriesByNewest. rewrite sort_Permutation.
    apply spread_apply.
  - unfold combinedLogs, entriesByNewest. apply sort_descending.
  - assumption.
Qed.

End Readings.

(** ** A concrete append *)

Definition atNine : Unsaved unit := {| u_timestamp := 9; u_fields := tt |}.

Lemma newest_reading_first_witness :
  hd_error (combinedLogs (apply (AddWeightReading 4 atNine)
                            (run tiedAppends noReadings)))
  = Some (weight {| id := "w4"; timestamp := 9; fields := tt |}).
Proof.
  apply (newest_reading_first (AddWeightReading 4 atNine) (run tiedAppends noReadings)).
  intros e Hin. cbn in Hin.
  destruct Hin as [<- | [<- | [<- | []]]]; cbn; lia.
Defined.

End LogExtras.

(* ================================================================== *)
(** * Properties of the audio helper functions *)
(* ================================================================== *)

Module AudioProofs.
Import Audio.

Local Open Scope Z_scope.

(** ** Reading base64 back *)

Fixpoint position (c : ascii) (digits : string) (from : Z) : option Z :=
  match digits with
  | EmptyString => None
  | String d rest => if Ascii.eqb d c then Some from else position c rest (from + 1)
  end.

Definition digitValue (c : ascii) : option Z := position c alphabet 0.

Definition isPad (c : ascii) : bool := Ascii.eqb c "="%char.

(** The inverse of [btoa] ([atob]); [None] on text that is not padded
    base64. *)
Fixpoint atob (text : string) : option string :=
  match text with
  | EmptyString => Some EmptyString
  | String c1 (String c2 (String c3 (String c4 rest))) =>
      match digitValue c1, digitValue c2 with
      | Some i1, Some i2 =>
          let a := fromCharCode (i1 * 4 + i2 / 16) in
          if isPad c3
          then if isPad c4 && (rest =? "")%string
               then Some (String a EmptyString) else None
          else
            match digitValue c3 with
            | Some i3 =>
                let b := fromCharCode (i2 mod 16 * 16 + i3 / 4) in
                if isPad c4
                then if (rest =? "")%string
                     then Some (String a (String b EmptyString)) else None
                else
                  match digitValue c4, atob rest with
                  | Some i4, Some tail =>
                      Some (String a (String b
                              (String (fromCharCode (i3 mod 4 * 64 + i4)) tail)))
                  | _, _ => None
                  end
            | None => None
            end
      | _, _ => None
      end
  | _ => None
  end.

Lemma charCode_range (c : ascii) : 0 <= charCode c < 256.
Proof.
  unfold charCode. pose proof (N_ascii_bounded c). lia.
Qed.

Lemma fromCharCode_charCode (c : ascii) : fromCharCode (charCode c) = c.
Proof.
  unfold fromCharCode, charCode. rewrite N2Z.id. apply ascii_N_embedding.
Qed.

Lemma charCode_fromCharCode (b : Z) : 0 <= b < 256 -> charCode (fromCharCode b) = b.
Proof.
  intros Hb. unfold fromCharCode, charCode.
  rewrite N_ascii_embedding by lia. lia.
Qed.

Lemma digit_value (i : Z) :
  0 <= i < 64 -> digitValue (digit i) = Some i /\ isPad (digit i) = false.
Proof.
  intros Hi.
  assert (H : exists n, i = Z.of_nat n /\ (n < 64)%nat).
  { exists (Z.to_nat i). lia. }
  destruct H as [n [-> Hn]]. clear Hi.
  do 64 (destruct n as [|n]; [vm_compute; split; reflexivity|]).
  lia.
Qed.

Lemma string_ind3 (P : string -> Prop) :
  P EmptyString ->
  (forall a, P (String a EmptyString)) ->
  (forall a b, P (String a (String b EmptyString))) ->
  (forall a b c rest, P rest -> P (String a (String b (String c rest)))) ->
  forall s, P s.
Proof.
  intros H0 H1 H2 H3.
  assert (H : forall s, P s /\ (forall a, P (String a s))
                        /\ (forall a b, P (String a (String b s)))).
  { induction s as [|c s (IH0 & IH1 & IH2)]; repeat split; auto. }
  intros s. apply H.
Qed.

Ltac byte_arith :=
  repeat match goal with
         | c : ascii |- _ =>
             let H := fresh "H" in
             pose proof (charCode_range c) as H;
             generalize dependent (charCode c); clear c; intros
         end;
  Z.div_mod_to_equations; lia.

(** Read the digits that [btoa] wrote. *)
Ltac read_digits :=
  repeat match goal with
         | |- context [digitValue (digit ?e)] =>
             let H := fresh "H" in
             assert (H : 0 <= e < 64) by (clear; byte_arith);
             rewrite (proj1 (digit_value H)); rewrite ?(proj2 (digit_value H));
             clear H
         end.

Lemma restore (c : ascii) (z : Z) : z = charCode c -> fromCharCode z = c.
Proof. intros ->. apply fromCharCode_charCode. Qed.

(** [btoa] loses nothing: reading its output back gives the binary string. *)
Lemma atob_btoa (binary : string) : atob (btoa binary) = Some binary.
Proof.
  induction binary as [ | a | a b | a b c rest IH] using string_ind3.
  - reflexivity.
  - cbn [btoa atob]. read_digits. cbn.
    rewrite (restore a) by (clear; byte_arith). reflexivity.
  - cbn [btoa atob]. read_digits. cbn.
    rewrite (restore a), (restore b) by (clear; byte_arith). reflexivity.
  - cbn [btoa atob]. fold btoa. fold atob. read_digits. rewrite IH.
    rewrite (restore a), (restore b), (restore c) by (clear; byte_arith).
    reflexivity.
Qed.

(** The character codes of a binary string. *)
Fixpoint charCodes (binary : string) : list Z :=
  match binary with
  | EmptyString => []
  | String c rest => charCode c :: charCodes rest
  end.

Definition isByte (b : Z) : Prop := 0 <= b < 256.

Lemma charCodes_binaryString (bytes : list Z) :
  Forall isByte bytes -> charCodes (binaryString bytes) = bytes.
Proof.
  induction 1 as [|b rest Hb _ IH]; cbn; [reflexivity|].
  now rewrite charCode_fromCharCode, IH.
Qed.

(** X17: [encode] is lossless: decoding its base64 output gives back, byte
    for byte, the array it was given. *)
Theorem encode_round_trip (bytes : list Z) :
  Forall isByte bytes ->
  option_map charCodes (atob (encode bytes)) = Some bytes.
Proof.
  intros Hbytes. unfold encode. rewrite atob_btoa. cbn.
  now rewrite charCodes_binaryString.
Qed.

Lemma length_binaryString (bytes : list Z) :
  String.length (binaryString bytes) = List.length bytes.
Proof. induction bytes as [|b rest IH]; cbn; congruence. Qed.

Lemma length_btoa (binary : string) :
  String.length (btoa binary) = (4 * ((String.length binary + 2) / 3))%nat.
Proof.
  induction binary as [ | a | a b | a b c rest IH] using string_ind3;
    try reflexivity.
  cbn [btoa String.length]. rewrite IH.
  replace (S (S (S (String.length rest))) + 2)%nat
    with (String.length rest + 2 + 1 * 3)%nat by lia.
  rewrite Nat.div_add by discriminate. lia.
Qed.

(** The output of [encode] has four characters for every started group of
    three bytes. *)
Lemma encode_length (bytes : list Z) :
  String.length (encode bytes) = (4 * ((List.length bytes + 2) / 3))%nat.
Proof.
  unfold encode. now rewrite length_btoa, length_binaryString.
Qed.

(** ** The 16-bit samples *)

Lemma ToInt16_range (x : float) : -32768 <= ToInt16 x < 32768.
Proof.
  unfold ToInt16.
  pose proof (Z.mod_pos_bound (truncate x) 65536 eq_refl) as Hb.
  destruct (Z.leb_spec 32768 (truncate x mod 65536)); lia.
Qed.

(** X18: a store into the [Int16Array] does not clamp: the integer part of
    the value is reduced modulo 2^16 into the signed 16-bit range.  Values
    whose integer part already is in that range are stored as that integer
    part; the others wrap around, 32768 becoming -32768. *)
Theorem ToInt16_wraps (x : float) :
  -32768 <= ToInt16 x < 32768
  /\ ToInt16 x mod 65536 = truncate x mod 65536
  /\ (-32768 <= truncate x < 32768 -> ToInt16 x = truncate x)
  /\ (truncate x = 32768 -> ToInt16 x = -32768).
Proof.
  unfold ToInt16. generalize (truncate x). intros t.
  pose proof (Z.mod_pos_bound t 65536 eq_refl) as Hb.
  destruct (Z.leb_spec 32768 (t mod 65536)) as [Hhigh | Hlow]; repeat split;
    try lia.
  - rewrite <- (Z.mod_add _ 1) by lia.
    replace (t mod 65536 - 65536 + 1 * 65536) with (t mod 65536) by lia.
    apply Z.mod_mod. lia.
  - intros Ht. revert Hhigh Hb. Z.div_mod_to_equations. lia.
  - intros ->. reflexivity.
  - apply Z.mod_mod. lia.
  - intros Ht. revert Hlow Hb. Z.div_mod_to_equations. lia.
  - intros ->. vm_compute in Hlow. discriminate.
Qed.

(** A full-scale positive sample wraps to the most negative value. *)
Example scaled_full_scale :
  scaled 1%float = -32768 /\ scaled (-1)%float = -32768
  /\ scaled 0.5%float = 16384 /\ scaled PrimFloat.nan = 0.
Proof. vm_compute. repeat split. Qed.

(** The elements of an [Int16Array] read from the bytes of its buffer. *)
Fixpoint int16s (binary : string) : list Z :=
  match binary with
  | String low (String high rest) =>
      let u := charCode low + 256 * charCode high in
      (if 32768 <=? u then u - 65536 else u) :: int16s rest
  | _ => []
  end.

Lemma int16s_bufferBytes (values : list Z) :
  Forall (fun v => -32768 <= v < 32768) values ->
  int16s (binaryString (bufferBytes values)) = values.
Proof.
  induction 1 as [|v rest Hv _ IH]; cbn [bufferBytes binaryString int16s];
    [reflexivity|].
  rewrite !charCode_fromCharCode by (Z.div_mod_to_equations; lia).
  rewrite IH. f_equal.
  destruct (Z.leb_spec 32768 (v mod 65536 mod 256 + 256 * (v mod 65536 / 256)));
    Z.div_mod_to_equations; lia.
Qed.

Lemma length_bufferBytes (values : list Z) :
  List.length (bufferBytes values) = (2 * List.length values)%nat.
Proof. induction values as [|v rest IH]; cbn; lia. Qed.

(** X19: the blob [createBlob] makes always carries the descriptor
    ['audio/pcm;rate=16000'], and its payload is the frame itself: decoding
    the base64 text and reading the bytes as little-endian 16-bit numbers
    gives, sample for sample, the 16-bit values the samples were converted
    to.  The payload has four characters for every started group of three
    bytes, two bytes per sample. *)
Theorem createBlob_round_trip (data : list float) :
  MedicationLogModal.mimeType (createBlob data) = "audio/pcm;rate=16000"%string
  /\ option_map int16s (atob (MedicationLogModal.data (createBlob data)))
     = Some (map scaled data)
  /\ String.length (MedicationLogModal.data (createBlob data))
     = (4 * ((2 * List.length data + 2) / 3))%nat.
Proof.
  split; [reflexivity|]. cbn [createBlob MedicationLogModal.createBlob
    MedicationLogModal.data]. unfold encodePcm. split.
  - unfold encode. rewrite atob_btoa. cbn [option_map]. f_equal.
    apply int16s_bufferBytes. apply Forall_forall. intros v Hin.
    apply in_map_iff in Hin. destruct Hin as [x [<- _]].
    apply ToInt16_range.
  - now rewrite encode_length, length_bufferBytes, length_map.
Qed.

Lemma ToInt16_wraps_witness :
  ToInt16 (PrimFloat.mul 1%float 32768%float) = -32768
  /\ ToInt16 (PrimFloat.mul 0.5%float 32768%float) = 16384.
Proof.
  split.
  - apply (proj2 (proj2 (proj2 (ToInt16_wraps (PrimFloat.mul 1%float 32768%float))))).
    vm_compute. reflexivity.
  - rewrite (proj1 (proj2 (proj2 (ToInt16_wraps (PrimFloat.mul 0.5%float 32768%float)))))
      by (vm_compute; split; [discriminate | reflexivity]).
    vm_compute. reflexivity.
Defined.

(** ** Runs *)

Lemma encode_round_trip_witness :
  option_map charCodes (atob (encode [77; 97; 110; 255])) = Some [77; 97; 110; 255].
Proof.
  apply (encode_round_trip (bytes := [77; 97; 110; 255])).
  repeat constructor; unfold isByte; lia.
Defined.

Example encode_Man : encode [77; 97; 110] = "TWFu"%string /\ encode [77] = "TQ=="%string.
Proof. split; reflexivity. Qed.

End AudioProofs.

(* ================================================================== *)
(** * Further properties of the voice session *)
(* ================================================================== *)

Module VoiceExtras.
Import GeminiService MedicationLogModal VoiceProofs.

(** The frames sent on a channel, in order. *)
Fixpoint sends (trace : list action) : list (nat * Blob) :=
  match trace with
  | [] => []
  | SendRealtimeInput k media :: rest => (k, media) :: sends rest
  | _ :: rest => sends rest
  end.

Lemma sends_app (t1 t2 : list action) :
  sends (t1 ++ t2) = (sends t1 ++ sends t2)%list.
Proof.
  induction t1 as [|a t1 IH]; cbn; [reflexivity|].
  destruct a; cbn; now rewrite IH.
Qed.

Lemma promiseOf_settle (k : nat) (p : promise) (table : list (nat * promise)) :
  promiseOf k table <> None -> promiseOf k (settle k p table) = Some p.
Proof.
  induction table as [|[k' q] rest IH]; cbn; [congruence|].
  destruct (Nat.eqb_spec k' k) as [-> | Hne]; cbn.
  - now rewrite Nat.eqb_refl.
  - intros H. destruct (Nat.eqb_spec k' k); [contradiction | auto].
Qed.

(** Split on every test the evaluation is stuck on. *)
Ltac split_matches :=
  repeat (cbn;
          match goal with
          | |- context [match ?x with _ => _ end] =>
              lazymatch x with
              | context [match _ with _ => _ end] => fail
              | _ => destruct x eqn:?
              end
          end).

Section Voice.

Variable Samples : Type.
Variable encodePcm : Samples -> string.

Abbreviation event := (event Samples).
Abbreviation step := (step encodePcm).
Abbreviation run := (run encodePcm).
Abbreviation fragment := (fragment Samples).

(** ** Starting a session *)

(** X20: when the microphone is refused, the session that was being
    started ends not listening, showing "Could not access the microphone."
    with an empty transcript; nothing was acquired and nothing is handed to
    the extraction. *)
Theorem microphone_denied (s : modal) :
  mounted (rt s) = true ->
  isListening (state s) = false ->
  snd (run [ToggleListen _; MicrophoneDenied _] s)
    = [GetUserMedia; ConsoleError "Error starting audio session:"]
  /\ isListening (state (fst (run [ToggleListen _; MicrophoneDenied _] s))) = false
  /\ error (state (fst (run [ToggleListen _; MicrophoneDenied _] s)))
     = "Could not access the microphone."
  /\ currentTranscript (state (fst (run [ToggleListen _; MicrophoneDenied _] s))) = ""
  /\ ref (fst (run [ToggleListen _; MicrophoneDenied _] s)) = ref s.
Proof.
  intros Hm Hl.
  destruct s as [[vs md ct il er li] r [m mic cs hs aw cl]].
  cbn in Hm, Hl. subst m li.
  unfold_handlers. split_tests. repeat split.
Qed.

(** X21: when the connection fails after the microphone was granted, the
    component reports "Could not access the microphone." and stops
    listening, but the granted stream is not released: its tracks are never
    stopped and [streamRef] keeps holding it. *)
Theorem connection_failed_keeps_stream (s : modal) (k : nat) :
  mounted (rt s) = true ->
  isListening (state s) = false ->
  snd (run [ToggleListen _; MicrophoneGranted _ k; ConnectFailed _ k] s)
    = [GetUserMedia; Connect k; ConsoleError "Error starting audio session:"]
  /\ streamRef (ref (fst (run [ToggleListen _; MicrophoneGranted _ k;
                               ConnectFailed _ k] s))) = Some k
  /\ isListening (state (fst (run [ToggleListen _; MicrophoneGranted _ k;
                                   ConnectFailed _ k] s))) = false
  /\ error (state (fst (run [ToggleListen _; MicrophoneGranted _ k;
                             ConnectFailed _ k] s)))
     = "Could not access the microphone.".
Proof.
  intros Hm Hl.
  destruct s as [[vs md ct il er li] r [m mic cs hs aw cl]].
  cbn in Hm, Hl. subst m li.
  unfold_handlers. rewrite !Nat.eqb_refl. split_tests. repeat split.
Qed.

(** ** Audio frames and the session promise *)

Lemma step_audio_pending (s : modal) (k : nat) (inputData : Samples)
    (waiting : list Blob) :
  mem k (handlers (rt s)) = true ->
  promiseOf k (connections (rt s)) = Some (Pending waiting) ->
  step (AudioProcess k inputData) s
  = (setConnections
       (settle k (Pending (waiting ++ [createBlob encodePcm inputData]))
          (connections (rt s))) s, []).
Proof.
  intros Hh Hp. unfold MedicationLogModal.step, andThen, handle, onaudioprocess.
  rewrite Hh, Hp. unfold assign. rewrite commit_same_cells by reflexivity.
  reflexivity.
Qed.

Lemma step_audio_rejected (s : modal) (k : nat) (inputData : Samples) :
  promiseOf k (connections (rt s)) = Some Rejected ->
  step (AudioProcess k inputData) s = (s, []).
Proof.
  intros Hp. unfold MedicationLogModal.step, andThen, handle, onaudioprocess.
  rewrite Hp. destruct (mem k _); unfold skip;
    rewrite commit_same_cells by reflexivity; reflexivity.
Qed.

Lemma step_session_ready (s : modal) (k : nat) (waiting : list Blob) :
  promiseOf k (connections (rt s)) = Some (Pending waiting) ->
  step (SessionReady _ k) s
  = (setSessionRef (Some k)
       (setConnections (settle k Fulfilled (connections (rt s))) s),
     map (SendRealtimeInput k) waiting).
Proof.
  intros Hp. unfold MedicationLogModal.step, andThen, handle, sessionReady.
  rewrite Hp. unfold assign. cbn.
  rewrite commit_same_cells by reflexivity.
  now rewrite app_nil_r.
Qed.

(** X22: frames captured before the session promise resolves are not lost:
    they wait for the promise and, when it fulfils, are sent to that session
    in capture order, each exactly once, behind the frames that were
    already waiting. *)
Theorem waiting_frames_sent_in_order
    (s : modal) (k : nat) (frames : list Samples) (waiting : list Blob) :
  mem k (handlers (rt s)) = true ->
  promiseOf k (connections (rt s)) = Some (Pending waiting) ->
  snd (run (map (AudioProcess k) frames ++ [SessionReady _ k]) s)
    = map (SendRealtimeInput k) (waiting ++ map (createBlob encodePcm) frames)
  /\ sessionRef (ref (fst (run (map (AudioProcess k) frames ++ [SessionReady _ k]) s)))
     = Some k.
Proof.
  revert s waiting.
  induction frames as [|f rest IH]; intros s waiting Hh Hp.
  - cbn [map app MedicationLogModal.run]. unfold andThen, skip.
    rewrite step_session_ready with (waiting := waiting) by assumption.
    cbn. now rewrite !app_nil_r.
  - cbn [map app MedicationLogModal.run]. unfold andThen.
    rewrite step_audio_pending with (waiting := waiting) by assumption.
    fold (MedicationLogModal.run encodePcm).
    specialize (IH (setConnections
                      (settle k (Pending (waiting ++ [createBlob encodePcm f]))
                         (connections (rt s))) s)
                   (waiting ++ [createBlob encodePcm f])%list).
    destruct (run _ _) as [s2 a2]. cbn [fst snd app] in IH |- *.
    rewrite <- app_assoc in IH. cbn [app] in IH.
    apply IH.
    + exact Hh.
    + cbn. apply promiseOf_settle. congruence.
Qed.

(** X23: when the connection fails instead, the frames that were waiting
    and every frame captured afterwards are dropped: nothing is ever sent. *)
Theorem frames_dropped_after_failure
    (s : modal) (k : nat) (frames : list Samples) (waiting : list Blob) :
  promiseOf k (connections (rt s)) = Some (Pending waiting) ->
  sends (snd (run (ConnectFailed _ k :: map (AudioProcess k) frames) s)) = [].
Proof.
  intros Hp. cbn [MedicationLogModal.run]. unfold andThen.
  destruct (step (ConnectFailed _ k) s) as [s1 a1] eqn:Hstep.
  assert (Hs1 : promiseOf k (connections (rt s1)) = Some Rejected /\ sends a1 = []).
  { destruct s as [[vs md ct il er li] r [m mic cs hs aw cl]].
    cbn in Hp. revert Hstep.
    unfold MedicationLogModal.step, andThen, handle, connectFailed.
    cbn [rt connections]. rewrite Hp.
    destruct m, li; unfold_handlers; split_tests; intros [= <- <-]; cbn;
      (split; [apply promiseOf_settle; congruence | reflexivity]). }
  destruct Hs1 as [Hrej Ha1].
  assert (Hrest : run (map (AudioProcess k) frames) s1 = (s1, [])).
  { induction frames as [|f rest IH]; cbn [map MedicationLogModal.run];
      [reflexivity|].
    unfold andThen. rewrite step_audio_rejected by assumption.
    fold (MedicationLogModal.run encodePcm). now rewrite IH. }
  rewrite Hrest. cbn [snd]. now rewrite app_nil_r.
Qed.

(** ** Fragments after the stop *)

(** X24: the channel callback for transcript fragments is not guarded
    either: a fragment with text that arrives when the session is not
    listening is appended, and the whole transcript is handed to the
    extraction again, once per such fragment. *)
Theorem late_fragment_reparsed (s : modal) (text : string) :
  mounted (rt s) = true ->
  isListening (state s) = false ->
  text <> "" ->
  snd (step (fragment text) s)
    = [ParseMedicationFromText (currentTranscript (state s) ++ text)]
  /\ currentTranscript (state (fst (step (fragment text) s)))
     = currentTranscript (state s) ++ text.
Proof.
  intros Hm Hl Htext.
  destruct s as [[vs md ct il er li] r [m mic cs hs aw cl]].
  cbn in Hm, Hl. subst m li.
  assert (H1 : (ct =? ct ++ text) = false).
  { apply String.eqb_neq. intros H. symmetry in H.
    now apply append_same_empty in H. }
  assert (H2 : (ct ++ text =? "") = false).
  { apply String.eqb_neq. intros H. now apply append_is_empty in H. }
  unfold_handlers. rewrite H1, H2. cbn. split; reflexivity.
Qed.

(** ** Reset and unmount *)

(** X25: starting over, and dismissing the modal, put the voice cells back
    to their initial values and never hand the transcript to the
    extraction, whatever the session was doing. *)
Theorem reset_discards_transcript (s : modal) (ev : event) :
  ev = StartOver _ \/ ev = Dismiss _ ->
  mounted (rt s) = true ->
  state (fst (step ev s)) = state initial
  /\ extractions (snd (step ev s)) = [].
Proof.
  intros Hev Hm.
  destruct s as [[vs md ct il er li] [se ctx proc st] [m mic cs hs aw cl]].
  cbn in Hm. subst m.
  destruct Hev as [-> | ->]; destruct li, st, proc, se, ctx;
    unfold_handlers; split_tests; split; reflexivity.
Qed.

(** After unmounting, one event changes no cell, keeps the component
    unmounted and asks for no extraction. *)
Lemma step_unmounted (s : modal) (ev : event) :
  mounted (rt s) = false ->
  state (fst (step ev s)) = state s
  /\ mounted (rt (fst (step ev s))) = false
  /\ extractions (snd (step ev s)) = [].
Proof.
  intros Hm.
  destruct s as [[vs md ct il er li] [se ctx proc st] [m mic cs hs aw cl]].
  cbn in Hm. subst m.
  destruct ev as [ | stream | | k | k | k | [[text|]|] | | | k inputData | c
                 | text [[r|]|e] | | | ];
    unfold MedicationLogModal.step, andThen, commit; cbn -[extractions];
    unfold_handlers; split_matches; repeat split.
  clear. induction waiting as [|b rest IH]; [reflexivity | exact IH].
Qed.

(** X26: an unmounted modal is inert towards its cells: whatever events
    still arrive (late fragments, settled promises, frames), no cell
    changes and the extraction is never invoked. *)
Theorem unmounted_is_inert (s : modal) (evs : list event) :
  mounted (rt s) = false ->
  state (fst (run evs s)) = state s
  /\ mounted (rt (fst (run evs s))) = false
  /\ extractions (snd (run evs s)) = [].
Proof.
  revert s. induction evs as [|ev rest IH]; intros s Hm.
  - cbn. auto.
  - cbn [MedicationLogModal.run]. unfold andThen.
    destruct (step_unmounted s ev Hm) as (Hs & Hm1 & He).
    destruct (step ev s) as [s1 a1]. cbn [fst snd] in Hs, Hm1, He.
    destruct (IH s1 Hm1) as (Hs2 & Hm2 & He2).
    destruct (run rest s1) as [s2 a2]. cbn [fst snd] in *.
    rewrite extractions_app, He, He2. repeat split; congruence.
Qed.

(** ** Two teardowns at once *)

(** X27: if the channel reports an error while an earlier [stopListening]
    is still suspended at [await close()], the second invocation finds the
    audio context already ['closed'], does not call [close()] again and
    closes the channel session itself, before the audio context has
    finished closing; when the first invocation resumes it releases
    nothing more.  Every handle is released once, in the usual order. *)
Theorem overlapping_teardown_closes_session_early
    (s : modal) (stop : event) (st p c x : nat) :
  stops stop ->
  isListening (state s) = true ->
  mem c (closedContexts (rt s)) = false ->
  ref s = {| sessionRef := Some x; inputAudioContextRef := Some c;
             scriptProcessorRef := Some p; streamRef := Some st |} ->
  releases (snd (run [stop] s)) = [StopTracks st; Disconnect p; CloseContext c]
  /\ releases (snd (run [stop; ChannelError _] s))
     = [StopTracks st; Disconnect p; CloseContext c; CloseSession x]
  /\ releases (snd (run [stop; ChannelError _; ContextClosed _ c] s))
     = [StopTracks st; Disconnect p; CloseContext c; CloseSession x].
Proof.
  intros Hstop Hl Hc Href.
  destruct s as [[vs md ct il er li] r [m mic cs hs aw cl]].
  cbn in Hl, Hc, Href. subst li r. unfold mem in Hc.
  destruct Hstop as [-> | ->]; destruct m;
    unfold_handlers; rewrite !Hc; split_tests; repeat split.
Qed.

End Voice.

(** ** Runs *)

(** The microphone is granted and the connection requested. *)
Definition connectingSession : modal :=
  fst (run Audio.encodePcm [ToggleListen _; MicrophoneGranted _ 1] initial).

(** The channel is open and frames are captured; the session promise is
    still pending. *)
Definition openingSession : modal :=
  fst (run Audio.encodePcm [ChannelOpened _ 1] connectingSession).

Definition firstFrame : list float := [0.5%float; (-0.5)%float].
Definition secondFrame : list float := [0.25%float].

Lemma microphone_denied_witness :
  snd (run noPcm [ToggleListen _; MicrophoneDenied _] initial)
    = [GetUserMedia; ConsoleError "Error starting audio session:"]
  /\ isListening (state (fst (run noPcm [ToggleListen _; MicrophoneDenied _] initial)))
     = false
  /\ error (state (fst (run noPcm [ToggleListen _; MicrophoneDenied _] initial)))
     = "Could not access the microphone."
  /\ currentTranscript
       (state (fst (run noPcm [ToggleListen _; MicrophoneDenied _] initial))) = ""
  /\ ref (fst (run noPcm [ToggleListen _; MicrophoneDenied _] initial)) = ref initial.
Proof.
  apply (@microphone_denied unit noPcm initial); reflexivity.
Defined.

Lemma connection_failed_keeps_stream_witness :
  snd (run noPcm [ToggleListen _; MicrophoneGranted _ 1; ConnectFailed _ 1] initial)
    = [GetUserMedia; Connect 1; ConsoleError "Error starting audio session:"]
  /\ streamRef (ref (fst (run noPcm [ToggleListen _; MicrophoneGranted _ 1;
                                     ConnectFailed _ 1] initial))) = Some 1%nat
  /\ isListening (state (fst (run noPcm [ToggleListen _; MicrophoneGranted _ 1;
                                         ConnectFailed _ 1] initial))) = false
  /\ error (state (fst (run noPcm [ToggleListen _; MicrophoneGranted _ 1;
                                   ConnectFailed _ 1] initial)))
     = "Could not access the microphone.".
Proof.
  apply (@connection_failed_keeps_stream unit noPcm initial 1%nat); reflexivity.
Defined.

Lemma waiting_frames_sent_in_order_witness :
  snd (run Audio.encodePcm
         (map (AudioProcess 1) [firstFrame; secondFrame] ++ [SessionReady _ 1])
         openingSession)
    = [SendRealtimeInput 1 {| data := "AEAAwA=="; mimeType := "audio/pcm;rate=16000" |};
       SendRealtimeInput 1 {| data := "ACA="; mimeType := "audio/pcm;rate=16000" |}]
  /\ sessionRef
       (ref (fst (run Audio.encodePcm
                    (map (AudioProcess 1) [firstFrame; secondFrame]
                     ++ [SessionReady _ 1])
                    openingSession)))
     = Some 1%nat.
Proof.
  apply (@waiting_frames_sent_in_order (list float) Audio.encodePcm openingSession
           1%nat [firstFrame; secondFrame] []); reflexivity.
Defined.

Lemma frames_dropped_after_failure_witness :
  sends (snd (run Audio.encodePcm
                (ConnectFailed _ 1 :: map (AudioProcess 1) [firstFrame; secondFrame])
                openingSession))
  = [].
Proof.
  apply (@frames_dropped_after_failure (list float) Audio.encodePcm openingSession
           1%nat [firstFrame; secondFrame] []); reflexivity.
Defined.

Lemma late_fragment_reparsed_witness :
  snd (step noPcm (fragment unit " two pills")
         (withTranscript "Metformin" drainingSession))
    = [ParseMedicationFromText "Metformin two pills"]
  /\ currentTranscript
       (state (fst (step noPcm (fragment unit " two pills")
                      (withTranscript "Metformin" drainingSession))))
     = "Metformin two pills".
Proof.
  apply (@late_fragment_reparsed unit noPcm
           (withTranscript "Metformin" drainingSession) " two pills");
    [reflexivity | reflexivity | discriminate].
Defined.

Lemma reset_discards_transcript_witness :
  state (fst (step noPcm (StartOver _) (withTranscript "Metformin" listeningSession)))
    = state initial
  /\ extractions
       (snd (step noPcm (StartOver _) (withTranscript "Metformin" listeningSession)))
     = [].
Proof.
  apply (@reset_discards_transcript unit noPcm
           (withTranscript "Metformin" listeningSession) (StartOver _));
    [now left | reflexivity].
Defined.

(** The modal is unmounted while it listens. *)
Definition unmountedSession : modal :=
  fst (run noPcm [Unmount _] (withTranscript "Metformin" listeningSession)).

Definition afterUnmount : list (event unit) :=
  [fragment unit " two pills"; ContextClosed _ 1; AudioProcess 1 tt;
   ParseSettled _ "Metformin" (Return None)].

Lemma unmounted_is_inert_witness :
  state (fst (run noPcm afterUnmount unmountedSession)) = state unmountedSession
  /\ mounted (rt (fst (run noPcm afterUnmount unmountedSession))) = false
  /\ extractions (snd (run noPcm afterUnmount unmountedSession)) = [].
Proof.
  apply (@unmounted_is_inert unit noPcm unmountedSession afterUnmount).
  reflexivity.
Defined.

Lemma overlapping_teardown_closes_session_early_witness :
  releases (snd (run noPcm [ToggleListen _; ChannelError _] listeningSession))
  = [StopTracks 1; Disconnect 1; CloseContext 1; CloseSession 1]
  /\ releases (snd (run noPcm [ToggleListen _; ChannelError _; ContextClosed _ 1]
                      listeningSession))
     = [StopTracks 1; Disconnect 1; CloseContext 1; CloseSession 1].
Proof.
  apply (@overlapping_teardown_closes_session_early unit noPcm listeningSession
           (ToggleListen _) 1%nat 1%nat 1%nat 1%nat);
    [now left | reflexivity | reflexivity | reflexivity].
Defined.

End VoiceExtras.

(* ================================================================== *)
(** * Properties of the submit handlers *)
(* ================================================================== *)

Module SubmitProofs.
Import Js GeminiService MedicationLogModal Submit.







(** X29: a match returned by [parseMedicationFromText] always passes the
    confirmation: once the modal has received it, [handleVoiceSubmit] logs
    the matched catalog entry's name, dosage and unit with the returned
    quantity, the transcript that was parsed and the source ['voice'], and
    closes the modal. *)
Theorem confirmed_match_is_logged
    (backend : nat -> request -> outcome) (toLowerCase : string -> string)
    (userMedications : list UserMedication) (w : world)
    (Samples : Type) (encodePcm : Samples -> string)
    (s : modal) (text : string) (r : MedicationMatch) (now : Z) :
  fst (parseMedicationFromText backend toLowerCase text userMedications w)
    = Return (Some r) ->
  mounted (rt s) = true ->
  In (matchedMed r) userMedications
  /\ voiceStep (state (fst (step encodePcm (ParseSettled _ text (Return (Some r))) s)))
     = confirm
  /\ handleVoiceSubmit now
       (fst (step encodePcm (ParseSettled _ text (Return (Some r))) s))
     = [onAddMedication
          {| App.u_timestamp := now;
             App.u_fields :=
               {| log_name := um_name (matchedMed r);
                  log_dosage := um_dosage (matchedMed r);
                  log_unit := um_unit (matchedMed r);
                  log_quantity := GeminiService.quantity r;
                  log_transcript := Some text;
                  log_source := voice |} |};
        onClose].
Proof.
  intros Hparse Hm.
  destruct (ServiceExtras.parseMedicationFromText_result backend toLowerCase text
              userMedications w) as (r' & Hret & Hsound).
  rewrite Hparse in Hret. injection Hret as <-.
  destruct (Hsound r eq_refl) as (Hin & Hpos & _).
  split; [assumption|].
  destruct s as [[vs md ct il er li] rf [m mic cs hs aw cl]].
  cbn in Hm. subst m.
  unfold MedicationLogModal.step, andThen, handle, parseSettled, assign, commit,
    dependenciesChanged.
  cbn. rewrite Bool.eqb_reflx, String.eqb_refl. cbn. rewrite ?andb_false_r.
  unfold handleVoiceSubmit. cbn. rewrite Hpos. split; reflexivity.
Qed.

(** ** Runs *)

(** Typing a negative number, choosing the third medication and clearing
    the quantity field. *)
Definition typing : list manualEvent :=
  [QuantityInput (-3)%float; Select "um3"; QuantityInput PrimFloat.nan].

Example typing_logs_one_gliclazide :
  handleManualSubmit 1700000000000 ServiceProofs.initialUserMedications
    (manualRun ServiceProofs.initialUserMedications (CatalogEffect :: typing)
       initialManual)
  = inl [onAddMedication
           {| App.u_timestamp := 1700000000000;
              App.u_fields :=
                {| log_name := "Gliclazide"; log_dosage := 80%float;
                   log_unit := "mg"; log_quantity := 1%float;
                   log_transcript := None; log_source := manual |} |};
         onClose].
Proof. vm_compute. reflexivity. Qed.


Definition twoMetformin : MedicationMatch :=
  {| matchedMed := ServiceProofs.metformin; GeminiService.quantity := 2%float |}.

Lemma confirmed_match_is_logged_witness :
  In ServiceProofs.metformin ServiceProofs.initialUserMedications
  /\ voiceStep (state (fst (step VoiceProofs.noPcm
                              (ParseSettled _ "Metformin two pills"
                                 (Return (Some twoMetformin)))
                              initial)))
     = confirm
  /\ handleVoiceSubmit 1700000000000
       (fst (step VoiceProofs.noPcm
               (ParseSettled _ "Metformin two pills" (Return (Some twoMetformin)))
               initial))
     = [onAddMedication
          {| App.u_timestamp := 1700000000000;
             App.u_fields :=
               {| log_name := "Metformin"; log_dosage := 500%float;
                  log_unit := "mg"; log_quantity := 2%float;
                  log_transcript := Some "Metformin two pills";
                  log_source := voice |} |};
        onClose].
Proof.
  apply (@confirmed_match_is_logged
           (ServiceProofs.answering
              (VObj [("name", VStr "metformin"); ("quantity", VNum 2%float)]))
           ServiceProofs.asciiLower ServiceProofs.initialUserMedications
           ServiceProofs.emptyWorld unit VoiceProofs.noPcm initial
           "Metformin two pills" twoMetformin 1700000000000).
  - vm_compute. reflexivity.
  - reflexivity.
Defined.

End SubmitProofs.
